(** * HeatGuard: heat index, risk classes, safe windows and guidance

    A shallow embedding of the computational core of [app.py] and the
    properties its specification states about it.

    Conventions of the embedding:
    - Python floats are read as real numbers ([R]); rounding, overflow and
      NaN of binary64 arithmetic are outside that model.  What is stated
      over [R] is what survives rounding (which formula, branch and
      threshold; orders that are not strict); a second, binary64 reading of
      the arithmetic functions shows where rounding decides.
    - Python ints (timestamps, minutes, millilitres) are [Z].
    - A Python call either returns, raises, or (for a [while] loop run with
      a bounded number of iterations) has not finished yet: type [Py].
    - The role table, a dict keyed by strings, is a [gmap string _]. *)

From Stdlib Require Import PrimFloat.
From Stdlib Require Import Reals Lra Lia ZArith.
From stdpp Require Import base option list sorting strings pretty gmap.

(** ** Python outcomes *)

Inductive exn : Type :=
| ValueError (msg : string)
| KeyError (key : string)
| IndexError (msg : string).

Inductive Py (A : Type) : Type :=
| Ret (a : A)
| Raise (e : exn)
| OutOfFuel.

Arguments Ret {A} a.
Arguments Raise {A} e.
Arguments OutOfFuel {A}.

Definition py_bind {A B : Type} (m : Py A) (k : A -> Py B) : Py B :=
  match m with
  | Ret a => k a
  | Raise e => Raise e
  | OutOfFuel => OutOfFuel
  end.

#[global] Instance Py_ret : MRet Py := fun A a => Ret a.
#[global] Instance Py_bind : MBind Py := fun A B k m => py_bind m k.

(** ** Comparisons on reals, as booleans *)

Definition Rltb (x y : R) : bool := if Rlt_dec x y then true else false.
Definition Rleb (x y : R) : bool := if Rle_dec x y then true else false.

(** ** Config & utilities *)

Definition f_to_c (f : R) : R := ((f - 32.0) * 5.0 / 9.0)%R.

Definition c_to_f (c : R) : R := (c * 9.0 / 5.0 + 32.0)%R.

(** [math.sqrt]: raises [ValueError] on a negative argument. *)
Definition math_sqrt (x : R) : Py R :=
  if Rleb 0 x then Ret (sqrt x) else Raise (ValueError "math domain error").

(** Rothfusz regression (NOAA) for Heat Index (Fahrenheit). *)
Definition heat_index_f (T_f RH : R) : Py R :=
  let c1 := (-42.379)%R in
  let c2 := 2.04901523%R in
  let c3 := 10.14333127%R in
  let c4 := (-0.22475541)%R in
  let c5 := (-0.00683783)%R in
  let c6 := (-0.05481717)%R in
  let c7 := 0.00122874%R in
  let c8 := 0.00085282%R in
  let c9 := (-0.00000199)%R in
  let HI := (c1 + c2*T_f + c3*RH + c4*T_f*RH + c5*(T_f^2) + c6*(RH^2)
             + c7*(T_f^2)*RH + c8*T_f*(RH^2) + c9*(T_f^2)*(RH^2))%R in
  (* Adjustments *)
  if Rltb RH 13 && (Rleb 80 T_f && Rleb T_f 112) then
    root ← math_sqrt ((17 - Rabs (T_f - 95)) / 17)%R;
    let adj := (((13 - RH) / 4) * root)%R in
    Ret (HI - adj)%R
  else if Rltb 85 RH && (Rleb 80 T_f && Rleb T_f 87) then
    let adj := (((RH - 85) / 10) * ((87 - T_f) / 5))%R in
    Ret (HI + adj)%R
  else
    Ret HI.

(** Risk categories (the strings "Low", "Moderate", "High", "Extreme"). *)
Inductive Risk : Type := Low | Moderate | High | Extreme.

Definition risk_str (r : Risk) : string :=
  match r with
  | Low => "Low"
  | Moderate => "Moderate"
  | High => "High"
  | Extreme => "Extreme"
  end.

(** The coloured-circle emoji returned next to the category. *)
Inductive Emoji : Type := RedCircle | OrangeCircle | YellowCircle | GreenCircle.

Definition risk_from_hi (hi_f : R) : Risk * Emoji :=
  if Rleb 125 hi_f then (Extreme, RedCircle)
  else if Rleb 104 hi_f then (High, OrangeCircle)
  else if Rleb 90 hi_f then (Moderate, YellowCircle)
  else (Low, GreenCircle).

(** [strftime("%-I%p")] of the UTC datetime [secs] seconds after the epoch:
    the hour on the 12-hour clock without padding, then AM or PM.  The
    datetime range (years 1 to 9999) is taken as the domain of [secs]. *)
Definition strftime_I_p (secs : Z) : string :=
  let h := ((secs `mod` 86400) `div` 3600)%Z in
  let i := (if (h `mod` 12 =? 0)%Z then 12 else h `mod` 12)%Z in
  pretty i +:+ (if (h <? 12)%Z then "AM" else "PM").

Definition fmt_hour (ts tz_offset_seconds : Z) : string :=
  (* ts is unix UTC *)
  strftime_I_p (ts + tz_offset_seconds).

Definition fmt_range (start_ts end_ts tz_offset_seconds : Z) : string :=
  let a := (start_ts + tz_offset_seconds)%Z in
  let b := (end_ts + tz_offset_seconds)%Z in
  if (a =? b)%Z then strftime_I_p a
  else strftime_I_p a +:+ "–" +:+ strftime_I_p b.

(** ** Role rules (base) *)

Record RoleRule : Type := mkRule {
  work : Z;
  rest : Z;
  ml_per_20 : Z;
  note : string
}.

Definition ROLE_RULES_items : list (string * RoleRule) :=
  [ ("Student athlete (13–18)", mkRule 45 15 250 "Light-colored gear; buddy checks.");
    ("Construction",            mkRule 40 20 300 "Use shade canopies; rotate tasks.");
    ("Delivery / courier",      mkRule 50 10 250 "Cold packs in bag; short stops in shade.");
    ("Elderly outdoors",        mkRule 30 30 200 "Frequent sips; caregiver check.") ].

Definition ROLE_RULES : gmap string RoleRule := list_to_map ROLE_RULES_items.

Definition risk_eqb (a b : Risk) : bool :=
  match a, b with
  | Low, Low | Moderate, Moderate | High, High | Extreme, Extreme => true
  | _, _ => false
  end.

Definition adjust_rules_for_risk (role : string) (peak_risk : Risk) : Py RoleRule :=
  match ROLE_RULES !! role with
  | None => Raise (KeyError role)
  | Some base =>
    let '(work0, rest0) := (work base, rest base) in
    let '(work1, rest1) :=
      if risk_eqb peak_risk High then
        (Z.max 20 (work0 - 10), (rest0 + 10)%Z)
      else if risk_eqb peak_risk Extreme then
        (Z.max 15 (work0 - 15), (rest0 + 15)%Z)
      else (work0, rest0) in
    Ret (mkRule work1 rest1 (ml_per_20 base) (note base))
  end.

(** The [while t <= total_minutes] loop, run for at most [fuel] tests of
    its condition. *)
Fixpoint hydration_loop (fuel : nat) (total_minutes ml_per_20 t : Z)
    (schedule : list (Z * Z)) : Py (list (Z * Z)) :=
  match fuel with
  | O => OutOfFuel
  | S fuel' =>
    if (t <=? total_minutes)%Z then
      hydration_loop fuel' total_minutes ml_per_20 (t + 20)%Z
                     (schedule ++ [(t, ml_per_20)])
    else Ret schedule
  end.

Definition hydration_schedule (fuel : nat) (total_minutes ml_per_20 : Z)
    : Py (list (Z * Z)) :=
  (* Return a list of (minute, amount_ml) *)
  hydration_loop fuel total_minutes ml_per_20 20 [].

(** ** Fetch forecast & analyze *)

(** One entry of the provider's ["hourly"] list.  The script reads ["dt"]
    and ["temp"] without a default, so they are fields here; ["humidity"]
    and ["uvi"] are read with a default and may be absent. *)
Record Hourly : Type := mkHourly {
  h_dt : Z;
  h_temp : R;
  h_humidity : option R;
  h_uvi : option R
}.

(** One dict appended to [rows]. *)
Record Row : Type := mkRow {
  ts : Z;
  temp_f : R;
  rh : R;
  uvi : R;
  hi_f : R;
  risk : Risk;
  emoji : Emoji;
  hour : string
}.

(** The body of [for h in hourly], up to the dict it appends. *)
Definition forecast_row (tz_offset : Z) (h : Hourly) : Py Row :=
  let T_f := h_temp h in              (* already in F (imperial) *)
  let RH := default 0%R (h_humidity h) in   (* in % *)
  let UVI := default 0.0%R (h_uvi h) in
  HI ← heat_index_f T_f RH;
  (* Optional "UV bump" of +3 F for UVI >= 8 *)
  let HI := if Rleb 8 UVI then (HI + 3.0)%R else HI in
  let '(risk, emoji) := risk_from_hi HI in
  Ret (mkRow (h_dt h) T_f RH UVI HI risk emoji (fmt_hour (h_dt h) tz_offset)).

Fixpoint forecast_rows (tz_offset : Z) (hourly : list Hourly) (rows : list Row)
    : Py (list Row) :=
  match hourly with
  | [] => Ret rows
  | h :: hourly' =>
    row ← forecast_row tz_offset h;
    forecast_rows tz_offset hourly' (rows ++ [row])
  end.

(** [max(iterable, key=...)]: the first item is the candidate and a later
    item replaces it only when its key is strictly greater. *)
Definition py_max {A : Type} (key : A -> R) (items : list A) : Py A :=
  match items with
  | [] => Raise (ValueError "max() arg is an empty sequence")
  | x :: items' =>
    Ret (fold_left (fun best y => if Rltb (key best) (key y) then y else best)
                   items' x)
  end.

(** [round(x)] of a float: to the nearest integer, halves to the even one. *)
Definition py_round (x : R) : Z :=
  let lo := (up x - 1)%Z in
  let d := (x - IZR lo)%R in
  if Rltb d (1/2) then lo
  else if Rltb (1/2) d then (lo + 1)%Z
  else if Z.even lo then lo else (lo + 1)%Z.

(** What the forecast branch has computed after the peak. *)
Inductive Forecast : Type :=
| NoHourly (msg : string)      (* st.error(msg), nothing computed *)
| Peak (rows : list Row) (peak : Row) (peak_risk : Risk) (peak_hi : Z).

Definition process_forecast (tz_offset : Z) (hourly : list Hourly) : Py Forecast :=
  if bool_decide (hourly = []) then
    Ret (NoHourly "No hourly forecast returned.")
  else
    (* Compute HI & risk *)
    rows ← forecast_rows tz_offset hourly [];
    (* Peak risk *)
    peak ← py_max hi_f rows;
    Ret (Peak rows peak (risk peak) (py_round (hi_f peak))).

(** ** Safe windows: contiguous Low/Moderate *)

Definition py_index {A : Type} (l : list A) (i : nat) : Py A :=
  match l !! i with
  | Some x => Ret x
  | None => Raise (IndexError "list index out of range")
  end.

Definition is_good (rw : Row) : bool :=
  match risk rw with
  | Low | Moderate => true
  | High | Extreme => false
  end.

Definition good_idxs_of (rows : list Row) : list nat :=
  fst <$> List.filter (fun p => is_good (snd p)) (imap pair rows).

(** The inner [while], run for at most [fuel] tests of its condition;
    returns the final [(i, end_i)]. *)
Fixpoint extend_window (fuel : nat) (good_idxs : list nat) (i end_i : nat)
    : Py (nat * nat) :=
  match fuel with
  | O => OutOfFuel
  | S fuel' =>
    if (i + 1 <? length good_idxs)%nat then
      next ← py_index good_idxs (i + 1);
      if (next =? end_i + 1)%nat then
        let i := (i + 1)%nat in
        end_i ← py_index good_idxs i;
        extend_window fuel' good_idxs i end_i
      else Ret (i, end_i)
    else Ret (i, end_i)
  end.

(** The outer [while], with the same bound on each loop. *)
Fixpoint window_loop (fuel : nat) (rows : list Row) (good_idxs : list nat)
    (i : nat) (windows : list (Z * Z)) : Py (list (Z * Z)) :=
  match fuel with
  | O => OutOfFuel
  | S fuel' =>
    if (i <? length good_idxs)%nat then
      start_i ← py_index good_idxs i;
      let end_i := start_i in
      '(i, end_i) ← extend_window fuel' good_idxs i end_i;
      first ← py_index rows start_i;
      last ← py_index rows end_i;
      window_loop fuel' rows good_idxs (i + 1) (windows ++ [(ts first, ts last)])
    else Ret windows
  end.

Definition merge_safe_windows (fuel : nat) (rows : list Row) : Py (list (Z * Z)) :=
  let good_idxs := good_idxs_of rows in
  window_loop fuel rows good_idxs 0 [].

(** ** The whole forecast branch *)

(** How the branch ends.  [Stopped e] is the [except] handler: whatever the
    script had drawn before the exception stays on the page, then it calls
    [st.error(f"Error: {e}")] and [st.stop()]; the exception is kept as it
    is, its text is not rendered. *)
Inductive Screen : Type :=
| StError (msg : string)
| Stopped (e : exn)
| Shown (rows : list Row) (peak_hi : Z) (peak_risk : Risk)
        (windows : list (Z * Z)) (rules : RoleRule) (sched : list (Z * Z)).

Definition analyze (fuel : nat) (role : string) (duration tz_offset : Z)
    (data_hourly : list Hourly) : Py Screen :=
  let hourly := take 24 data_hourly in   (* next 24 hours *)
  forecast ← process_forecast tz_offset hourly;
  match forecast with
  | NoHourly msg => Ret (StError msg)
  | Peak rows peak peak_risk peak_hi =>
    windows ← merge_safe_windows fuel rows;
    (* Guidance *)
    rules ← adjust_rules_for_risk role peak_risk;
    (* Hydration plan timeline *)
    sched ← hydration_schedule fuel duration (ml_per_20 rules);
    Ret (Shown rows peak_hi peak_risk windows rules sched)
  end.

(** [try: ... except Exception as e: st.error(f"Error: {e}"); st.stop()]. *)
Definition try_analyze (fuel : nat) (role : string) (duration tz_offset : Z)
    (data_hourly : list Hourly) : Py Screen :=
  match analyze fuel role duration tz_offset data_hourly with
  | Raise e => Ret (Stopped e)
  | outcome => outcome
  end.

(** ** The specification's reading of the heat index *)

(** The NOAA constants as the specification lists them. *)
Definition noaa_c1 : R := (-42.379)%R.
Definition noaa_c2 : R := 2.04901523%R.
Definition noaa_c3 : R := 10.14333127%R.
Definition noaa_c4 : R := (-0.22475541)%R.
Definition noaa_c5 : R := (-0.00683783)%R.
Definition noaa_c6 : R := (-0.05481717)%R.
Definition noaa_c7 : R := 0.00122874%R.
Definition noaa_c8 : R := 0.00085282%R.
Definition noaa_c9 : R := (-0.00000199)%R.

(** HI = c1 + c2 T + c3 RH + c4 T RH + c5 T² + c6 RH² + c7 T² RH
         + c8 T RH² + c9 T² RH². *)
Definition rothfusz (T RH : R) : R :=
  (noaa_c1 + noaa_c2 * T + noaa_c3 * RH + noaa_c4 * T * RH
   + noaa_c5 * T² + noaa_c6 * RH² + noaa_c7 * T² * RH
   + noaa_c8 * T * RH² + noaa_c9 * T² * RH²)%R.

Definition low_humidity (T RH : R) : Prop := (RH < 13 /\ 80 <= T <= 112)%R.
Definition high_humidity (T RH : R) : Prop := (RH > 85 /\ 80 <= T <= 87)%R.

Definition low_humidity_adj (T RH : R) : R :=
  (((13 - RH) / 4) * sqrt ((17 - Rabs (T - 95)) / 17))%R.
Definition high_humidity_adj (T RH : R) : R :=
  (((RH - 85) / 10) * ((87 - T) / 5))%R.

(** The order Low < Moderate < High < Extreme. *)
Definition risk_rank (r : Risk) : nat :=
  match r with Low => 0 | Moderate => 1 | High => 2 | Extreme => 3 end.
Definition risk_le (a b : Risk) : Prop := risk_rank a <= risk_rank b.

(** The statement that the low-humidity branch returns a value strictly
    below the bare polynomial. *)
Definition strictly_below_rothfusz (T RH : R) : Prop :=
  exists hi, heat_index_f T RH = Ret hi /\ (hi < rothfusz T RH)%R.

(** ** The specification's reading of the hydration schedule *)

(** Reminders at minutes 20, 40, ..., 20 * (D div 20), each with amount A. *)
Definition reminders (D A : Z) : list (Z * Z) :=
  (fun i : nat => ((20 * Z.of_nat i)%Z, A)) <$> seq 1 (Z.to_nat (D `div` 20)).

(** A call that signals its caller by raising. *)
Definition raises {A : Type} (out : Py A) : Prop := exists e, out = Raise e.

(** ** The specification's reading of the forecast rows *)

(** [row] is the annotated row of the reading [h]: the reading's fields,
    the heat index with 3 added when the UV index is at least 8, and the
    class of that heat index. *)
Definition annotates (h : Hourly) (row : Row) : Prop :=
  ts row = h_dt h /\
  temp_f row = h_temp h /\
  rh row = default 0%R (h_humidity h) /\
  uvi row = default 0%R (h_uvi h) /\
  (exists hi, heat_index_f (temp_f row) (rh row) = Ret hi /\
     ((8 <= uvi row)%R -> hi_f row = (hi + 3)%R) /\
     ((uvi row < 8)%R -> hi_f row = hi)) /\
  risk row = fst (risk_from_hi (hi_f row)).

(** [peak] is the row of [rows] with the greatest heat index, the first
    one in the order of [rows] when several rows share it. *)
Definition first_maximum (rows : list Row) (peak : Row) : Prop :=
  exists i : nat, rows !! i = Some peak /\
    (forall (j : nat) (r : Row), rows !! j = Some r -> (hi_f r <= hi_f peak)%R) /\
    (forall (j : nat) (r : Row), j < i -> rows !! j = Some r -> (hi_f r < hi_f peak)%R).

(** ** The specification's reading of the safe windows *)

(** Row [k] exists and its class is Low or Moderate. *)
Definition good_at (rows : list Row) (k : nat) : Prop :=
  exists rw, rows !! k = Some rw /\ is_good rw = true.

(** Rows [s..e] are a run of Low/Moderate rows, consecutive in [rows], that
    cannot be extended on either side. *)
Definition maximal_run (rows : list Row) (s e : nat) : Prop :=
  s <= e /\
  (forall k, s <= k <= e -> good_at rows k) /\
  (forall k, S k = s -> ~ good_at rows k) /\
  ~ good_at rows (S e).

(** The window of a run: the timestamps of its first and last row. *)
Definition spans (rows : list Row) (run : nat * nat) (w : Z * Z) : Prop :=
  exists first last,
    rows !! fst run = Some first /\ rows !! snd run = Some last /\
    w = (ts first, ts last).

Definition nondecreasing_ts (rows : list Row) : Prop :=
  forall (i j : nat) (ri rj : Row),
    i <= j -> rows !! i = Some ri -> rows !! j = Some rj -> (ts ri <= ts rj)%Z.

Definition increasing_ts (rows : list Row) : Prop :=
  forall (i j : nat) (ri rj : Row),
    i < j -> rows !! i = Some ri -> rows !! j = Some rj -> (ts ri < ts rj)%Z.

(** Two closed intervals share a point. *)
Definition overlap (w1 w2 : Z * Z) : Prop :=
  exists t : Z, (fst w1 <= t <= snd w1)%Z /\ (fst w2 <= t <= snd w2)%Z.

(** The windows are pairwise without a common point. *)
Definition pairwise_disjoint (windows : list (Z * Z)) : Prop :=
  forall (i j : nat) (w1 w2 : Z * Z),
    i < j -> windows !! i = Some w1 -> windows !! j = Some w2 -> ~ overlap w1 w2.

(** Each window ends no later than the next one starts. *)
Definition in_order (windows : list (Z * Z)) : Prop :=
  forall (i j : nat) (w1 w2 : Z * Z),
    i < j -> windows !! i = Some w1 -> windows !! j = Some w2 ->
    (snd w1 <= fst w2)%Z.

(** *** The two loops as functions on the index list *)

(** The runs of consecutive numbers of [g], the current run being [s..e]. *)
Fixpoint runs_from (s e : nat) (g : list nat) : list (nat * nat) :=
  match g with
  | [] => [(s, e)]
  | x :: g' =>
    if (x =? e + 1)%nat then runs_from s x g' else (s, e) :: runs_from x x g'
  end.

Definition runs_of (g : list nat) : list (nat * nat) :=
  match g with
  | [] => []
  | x :: g' => runs_from x x g'
  end.

(** The indices, counted from [n], of the Low/Moderate rows. *)
Fixpoint good_from (n : nat) (rows : list Row) : list nat :=
  match rows with
  | [] => []
  | rw :: rows' =>
    if is_good rw then n :: good_from (S n) rows' else good_from (S n) rows'
  end.

(** [g] lists, in increasing order, the good rows after [e]. *)
Definition lists_good_after (rows : list Row) (e : nat) (g : list nat) : Prop :=
  StronglySorted lt g /\ forall k, k ∈ g <-> e < k /\ good_at rows k.

(** Consecutive runs are separated by at least one row. *)
Definition apart (r1 r2 : nat * nat) : Prop := S (snd r1) < fst r2.

(** A row with timestamp [t] and class [r], for the examples. *)
Definition row_at (t : Z) (r : Risk) : Row := mkRow t 0 0 0 0 r GreenCircle "".

(** ** Rendering and the session timer *)

(** The emoji beside the peak risk, looked up in
    [dict(Low=..., Moderate=..., High=..., Extreme=...)]. *)
Definition peak_emoji (peak_risk : Risk) : Emoji :=
  match peak_risk with
  | Low => GreenCircle
  | Moderate => YellowCircle
  | High => OrangeCircle
  | Extreme => RedCircle
  end.

(** What the script writes under "Hydration plan timeline": the minutes of
    the reminders, or the note for a session shorter than 20 minutes. *)
Inductive HydrationNote : Type :=
| ReminderMinutes (minutes : list Z)
| StillBringWater.

Definition hydration_note (sched : list (Z * Z)) : HydrationNote :=
  match sched with
  | [] => StillBringWater
  | _ :: _ => ReminderMinutes (fst <$> sched)
  end.

(** [[m for m,_ in sched if m*60 > elapsed]]. *)
Definition next_marks (sched : list (Z * Z)) (elapsed : Z) : list Z :=
  fst <$> List.filter (fun p => (elapsed <? fst p * 60)%Z) sched.

(** The message of the reminder ticker. *)
Inductive TimerNote : Type :=
| NextReminder (minute : Z)
| ScheduleComplete.

Definition timer_note (sched : list (Z * Z)) (elapsed : Z) : TimerNote :=
  let next_marks := next_marks sched elapsed in
  let nxt := head next_marks in   (* next_marks[0] if next_marks else None *)
  match nxt with
  | Some m => if (m =? 0)%Z then ScheduleComplete else NextReminder m
  | None => ScheduleComplete
  end.

(** The hour of the day (0 to 23) that [strftime_I_p] reads off [secs]. *)
Definition hour_of_day (secs : Z) : Z := ((secs `mod` 86400) `div` 3600)%Z.

(** ** The binary64 reading of the arithmetic functions

    The same functions on IEEE 754 binary64 values, the floats of the
    interpreter.  [x ** 2] is read as the correctly rounded product
    [x * x], which is what the C library's [pow] returns at the values
    used in the examples. *)

Definition math_sqrt64 (x : float) : Py float :=
  if (x <? 0)%float then Raise (ValueError "math domain error")
  else Ret (PrimFloat.sqrt x).

#[warnings="-inexact-float"]
Definition rothfusz64 (T_f RH : float) : float :=
  let c1 := (-42.379)%float in
  let c2 := 2.04901523%float in
  let c3 := 10.14333127%float in
  let c4 := (-0.22475541)%float in
  let c5 := (-0.00683783)%float in
  let c6 := (-0.05481717)%float in
  let c7 := 0.00122874%float in
  let c8 := 0.00085282%float in
  let c9 := (-0.00000199)%float in
  (c1 + c2*T_f + c3*RH + c4*T_f*RH + c5*(T_f*T_f) + c6*(RH*RH)
   + c7*(T_f*T_f)*RH + c8*T_f*(RH*RH) + c9*(T_f*T_f)*(RH*RH))%float.

Definition heat_index_f64 (T_f RH : float) : Py float :=
  let HI := rothfusz64 T_f RH in
  (* Adjustments *)
  if (RH <? 13)%float && ((80 <=? T_f)%float && (T_f <=? 112)%float) then
    root ← math_sqrt64 ((17 - PrimFloat.abs (T_f - 95)) / 17)%float;
    let adj := (((13 - RH) / 4) * root)%float in
    Ret (HI - adj)%float
  else if (85 <? RH)%float && ((80 <=? T_f)%float && (T_f <=? 87)%float) then
    let adj := (((RH - 85) / 10) * ((87 - T_f) / 5))%float in
    Ret (HI + adj)%float
  else
    Ret HI.

Definition f_to_c64 (f : float) : float := ((f - 32.0) * 5.0 / 9.0)%float.

Definition c_to_f64 (c : float) : float := (c * 9.0 / 5.0 + 32.0)%float.

(** * Properties *)

(** ** Real comparisons *)

Lemma Rltb_true_iff (x y : R) : Rltb x y = true <-> (x < y)%R.
Proof. unfold Rltb. destruct (Rlt_dec x y); split; intros; auto; discriminate. Qed.

Lemma Rltb_false_iff (x y : R) : Rltb x y = false <-> (y <= x)%R.
Proof.
  unfold Rltb. destruct (Rlt_dec x y); split; intros; try lra; auto; discriminate.
Qed.

Lemma Rleb_true_iff (x y : R) : Rleb x y = true <-> (x <= y)%R.
Proof. unfold Rleb. destruct (Rle_dec x y); split; intros; auto; discriminate. Qed.

Lemma Rleb_false_iff (x y : R) : Rleb x y = false <-> (y < x)%R.
Proof.
  unfold Rleb. destruct (Rle_dec x y); split; intros; try lra; auto; discriminate.
Qed.

(** Case analysis on every comparison in the goal, keeping the facts. *)
Ltac Rcases :=
  repeat match goal with
  | |- context [Rltb ?x ?y] =>
    let E := fresh "E" in
    destruct (Rltb x y) eqn:E;
    [apply Rltb_true_iff in E | apply Rltb_false_iff in E]
  | |- context [Rleb ?x ?y] =>
    let E := fresh "E" in
    destruct (Rleb x y) eqn:E;
    [apply Rleb_true_iff in E | apply Rleb_false_iff in E]
  end.

(** ** Heat index *)

Lemma rothfusz_unfold (T RH : R) :
  rothfusz T RH =
  (-42.379 + 2.04901523*T + 10.14333127*RH + -0.22475541*T*RH
   + -0.00683783*(T^2) + -0.05481717*(RH^2) + 0.00122874*(T^2)*RH
   + 0.00085282*T*(RH^2) + -0.00000199*(T^2)*(RH^2))%R.
Proof.
  unfold rothfusz, noaa_c1, noaa_c2, noaa_c3, noaa_c4, noaa_c5, noaa_c6,
    noaa_c7, noaa_c8, noaa_c9, Rsqr. simpl. ring.
Qed.

Lemma sqrt_arg_nonneg (T : R) :
  (80 <= T <= 112)%R -> (Rabs (T - 95) <= 17 /\ 0 <= (17 - Rabs (T - 95)) / 17)%R.
Proof.
  intros HT.
  assert (H : (Rabs (T - 95) <= 17)%R) by (apply Rabs_le; lra).
  split; [exact H | lra].
Qed.

Lemma heat_index_f_low (T RH : R) :
  low_humidity T RH ->
  heat_index_f T RH = Ret (rothfusz T RH - low_humidity_adj T RH)%R.
Proof.
  intros [HRH HT]. destruct (sqrt_arg_nonneg T HT) as [_ Harg].
  rewrite rothfusz_unfold. unfold heat_index_f, math_sqrt, low_humidity_adj.
  rewrite (proj2 (Rltb_true_iff RH 13)) by lra.
  rewrite (proj2 (Rleb_true_iff 80 T)), (proj2 (Rleb_true_iff T 112)) by lra.
  simpl andb. cbv iota.
  rewrite (proj2 (Rleb_true_iff 0 _) Harg). reflexivity.
Qed.

Lemma heat_index_f_high (T RH : R) :
  high_humidity T RH ->
  heat_index_f T RH = Ret (rothfusz T RH + high_humidity_adj T RH)%R.
Proof.
  intros [HRH HT].
  rewrite rothfusz_unfold. unfold heat_index_f, high_humidity_adj.
  rewrite (proj2 (Rltb_false_iff RH 13)) by lra.
  rewrite (proj2 (Rltb_true_iff 85 RH)) by lra.
  rewrite (proj2 (Rleb_true_iff 80 T)), (proj2 (Rleb_true_iff T 87)) by lra.
  reflexivity.
Qed.

Lemma heat_index_f_plain (T RH : R) :
  ~ low_humidity T RH -> ~ high_humidity T RH ->
  heat_index_f T RH = Ret (rothfusz T RH).
Proof.
  unfold low_humidity, high_humidity. intros Hlow Hhigh.
  rewrite rothfusz_unfold. unfold heat_index_f.
  Rcases; simpl; try reflexivity; exfalso; (apply Hlow; lra) || (apply Hhigh; lra).
Qed.

Lemma humidity_cases_exclusive (T RH : R) :
  ~ (low_humidity T RH /\ high_humidity T RH).
Proof. unfold low_humidity, high_humidity. lra. Qed.

(** C1. [heat_index_f] is the NOAA Rothfusz polynomial with the listed
    constants, minus the low-humidity term when RH < 13 and 80 <= T <= 112,
    plus the high-humidity term when RH > 85 and 80 <= T <= 87, and the bare
    polynomial otherwise; the two cases exclude each other and every input
    is accepted. *)
Theorem heat_index_f_is_rothfusz (T RH : R) :
  (low_humidity T RH ->
   heat_index_f T RH = Ret (rothfusz T RH - low_humidity_adj T RH)%R) /\
  (high_humidity T RH ->
   heat_index_f T RH = Ret (rothfusz T RH + high_humidity_adj T RH)%R) /\
  (~ low_humidity T RH -> ~ high_humidity T RH ->
   heat_index_f T RH = Ret (rothfusz T RH)) /\
  ~ (low_humidity T RH /\ high_humidity T RH).
Proof.
  split; [apply heat_index_f_low |].
  split; [apply heat_index_f_high |].
  split; [apply heat_index_f_plain | apply humidity_cases_exclusive].
Qed.

Lemma heat_index_f_is_rothfusz_witness :
  low_humidity 90 10 /\
  heat_index_f 90 10 = Ret (rothfusz 90 10 - low_humidity_adj 90 10)%R.
Proof.
  assert (H : low_humidity 90 10) by (unfold low_humidity; lra).
  split; [exact H | exact (proj1 (heat_index_f_is_rothfusz 90 10) H)].
Defined.

(** C10. [heat_index_f] returns on every pair of reals: the square root is
    only taken under the guard RH < 13 and 80 <= T <= 112, where
    |T - 95| <= 17 and the argument (17 - |T - 95|)/17 is not negative, so
    [math.sqrt] does not raise. *)
Theorem heat_index_f_total (T RH : R) :
  (exists hi, heat_index_f T RH = Ret hi) /\
  (low_humidity T RH ->
   (Rabs (T - 95) <= 17)%R /\ (0 <= (17 - Rabs (T - 95)) / 17)%R /\
   math_sqrt ((17 - Rabs (T - 95)) / 17) = Ret (sqrt ((17 - Rabs (T - 95)) / 17))).
Proof.
  split.
  - destruct (Rlt_dec RH 13) as [H1 | H1];
      [destruct (Rle_dec 80 T) as [H2 | H2];
         [destruct (Rle_dec T 112) as [H3 | H3] | ] | ].
    1: { eexists. apply heat_index_f_low. unfold low_humidity. lra. }
    all: destruct (Rlt_dec 85 RH) as [H4 | H4];
      [destruct (Rle_dec 80 T) as [H5 | H5];
         [destruct (Rle_dec T 87) as [H6 | H6] | ] | ].
    all: try (eexists; apply heat_index_f_high; unfold high_humidity; lra).
    all: eexists; apply heat_index_f_plain;
      unfold low_humidity, high_humidity; lra.
  - intros [_ HT]. destruct (sqrt_arg_nonneg T HT) as [Habs Harg].
    repeat split; try assumption.
    unfold math_sqrt. now rewrite (proj2 (Rleb_true_iff 0 _) Harg).
Qed.

Lemma heat_index_f_total_witness :
  low_humidity 112 0 /\
  math_sqrt ((17 - Rabs (112 - 95)) / 17) = Ret (sqrt ((17 - Rabs (112 - 95)) / 17)).
Proof.
  assert (H : low_humidity 112 0) by (unfold low_humidity; lra).
  split; [exact H | exact (proj2 (proj2 (proj2 (heat_index_f_total 112 0) H)))].
Defined.

Lemma low_humidity_adj_at_112 (RH : R) : low_humidity_adj 112 RH = 0%R.
Proof.
  unfold low_humidity_adj.
  assert (H : Rabs (112 - 95) = 17%R) by (rewrite Rabs_pos_eq; lra).
  rewrite H. replace ((17 - 17) / 17)%R with 0%R by lra.
  rewrite sqrt_0. ring.
Qed.

Lemma low_humidity_adj_nonneg (T RH : R) :
  (80 <= T <= 112)%R -> (RH < 13)%R -> (0 <= low_humidity_adj T RH)%R.
Proof.
  intros HT HRH. unfold low_humidity_adj.
  apply Rmult_le_pos; [lra | apply sqrt_pos].
Qed.

(** C6, as the specification states it, fails at T = 112: the square root
    is taken of 0 and nothing is subtracted. *)
Lemma low_humidity_not_strict_at_112 :
  (80 <= 112 <= 112)%R /\ (0 < 13)%R /\ ~ strictly_below_rothfusz 112 0.
Proof.
  split; [lra |]. split; [lra |].
  intros [hi [Hhi Hlt]].
  rewrite heat_index_f_low in Hhi by (unfold low_humidity; lra).
  rewrite low_humidity_adj_at_112 in Hhi.
  injection Hhi as Hhi. lra.
Qed.

(** C6, amended. For 80 <= T <= 112 and RH < 13 the low-humidity
    adjustment never raises the heat index: the returned value is at most
    the bare polynomial, and equal to it at T = 112, where the adjustment
    is 0. *)
Theorem low_humidity_at_most_rothfusz (T RH : R) :
  (80 <= T <= 112)%R -> (RH < 13)%R ->
  exists hi, heat_index_f T RH = Ret hi /\
    (hi <= rothfusz T RH)%R /\
    (T = 112%R -> hi = rothfusz T RH).
Proof.
  intros HT HRH. eexists. split.
  - apply heat_index_f_low. unfold low_humidity. lra.
  - pose proof (low_humidity_adj_nonneg T RH HT HRH) as Hadj.
    split; [lra |]. intros ->. rewrite low_humidity_adj_at_112. lra.
Qed.

Lemma low_humidity_at_most_rothfusz_witness :
  exists hi, heat_index_f 100 5 = Ret hi /\
    (hi <= rothfusz 100 5)%R /\
    (100%R = 112%R -> hi = rothfusz 100 5).
Proof. apply (low_humidity_at_most_rothfusz 100 5); lra. Defined.

(** ** Risk classes *)

Lemma risk_from_hi_bounds (hi : R) :
  (104 <= hi < 125)%R -> fst (risk_from_hi hi) = High.
Proof. intros H. unfold risk_from_hi. Rcases; simpl; try reflexivity; lra. Qed.

(** C5. [risk_from_hi] is defined on every real and reads the thresholds
    highest first: 125 and above Extreme, 104 and above High, 90 and above
    Moderate, otherwise Low; it is monotone for Low < Moderate < High <
    Extreme. *)
Theorem risk_from_hi_step (h1 h2 : R) :
  ((125 <= h1)%R -> fst (risk_from_hi h1) = Extreme) /\
  ((104 <= h1 < 125)%R -> fst (risk_from_hi h1) = High) /\
  ((90 <= h1 < 104)%R -> fst (risk_from_hi h1) = Moderate) /\
  ((h1 < 90)%R -> fst (risk_from_hi h1) = Low) /\
  ((h1 < h2)%R -> risk_le (fst (risk_from_hi h1)) (fst (risk_from_hi h2))).
Proof.
  unfold risk_from_hi, risk_le.
  repeat split; intros; Rcases; simpl; try reflexivity; try lra; try lia.
Qed.

Lemma risk_from_hi_step_witness :
  fst (risk_from_hi 130) = Extreme /\
  risk_le (fst (risk_from_hi 95)) (fst (risk_from_hi 130)).
Proof.
  split.
  - apply (risk_from_hi_step 130 130). lra.
  - apply (risk_from_hi_step 95 130). lra.
Defined.

(** ** Guidance *)

(** C7. For every role of the table: High gives work = max(20, work - 10)
    and rest + 10, Extreme gives work = max(15, work - 15) and rest + 15,
    Low and Moderate leave the baseline as it is; Construction has the
    baseline 40/20 and under Extreme gets 25/35. *)
Theorem adjust_rules_for_risk_spec (role : string) (base : RoleRule) :
  ROLE_RULES !! role = Some base ->
  adjust_rules_for_risk role High =
    Ret (mkRule (Z.max 20 (work base - 10)) (rest base + 10)
                (ml_per_20 base) (note base)) /\
  adjust_rules_for_risk role Extreme =
    Ret (mkRule (Z.max 15 (work base - 15)) (rest base + 15)
                (ml_per_20 base) (note base)) /\
  adjust_rules_for_risk role Low = Ret base /\
  adjust_rules_for_risk role Moderate = Ret base /\
  (role = "Construction" ->
   work base = 40%Z /\ rest base = 20%Z /\
   exists rules, adjust_rules_for_risk role Extreme = Ret rules /\
     work rules = 25%Z /\ rest rules = 35%Z).
Proof.
  intros Hbase. unfold adjust_rules_for_risk. rewrite Hbase. simpl.
  split; [reflexivity |]. split; [reflexivity |].
  split; [destruct base; reflexivity |].
  split; [destruct base; reflexivity |].
  intros ->. vm_compute in Hbase. injection Hbase as <-.
  split; [reflexivity |]. split; [reflexivity |].
  eexists. split; [reflexivity |]. split; reflexivity.
Qed.

Lemma adjust_rules_for_risk_spec_witness :
  exists rules, adjust_rules_for_risk "Construction" Extreme = Ret rules /\
    work rules = 25%Z /\ rest rules = 35%Z.
Proof.
  apply (adjust_rules_for_risk_spec "Construction"
           (mkRule 40 20 300 "Use shade canopies; rotate tasks."));
    reflexivity.
Defined.

(** ** Hydration schedule *)

Lemma hydration_loop_runs (total ml : Z) (n : nat) :
  forall (fuel : nat) (t : Z) (schedule : list (Z * Z)),
  n < fuel ->
  (total < t + 20 * Z.of_nat n)%Z ->
  (0 < n -> (t + 20 * (Z.of_nat n - 1) <= total)%Z) ->
  hydration_loop fuel total ml t schedule =
    Ret (schedule ++ ((fun i : nat => ((t + 20 * Z.of_nat i)%Z, ml)) <$> seq 0 n)).
Proof.
  induction n as [| n IH]; intros fuel t schedule Hfuel Hhi Hlo;
    (destruct fuel as [| fuel]; [lia |]); simpl hydration_loop.
  - rewrite (proj2 (Z.leb_gt t total)) by lia.
    simpl. now rewrite app_nil_r.
  - rewrite (proj2 (Z.leb_le t total)) by lia.
    rewrite IH by lia.
    rewrite <- app_assoc. f_equal. f_equal. simpl.
    rewrite Z.add_0_r. f_equal.
    rewrite <- seq_shift, <- list_fmap_compose.
    apply list_fmap_ext. intros _ i _. simpl. f_equal. lia.
Qed.

Lemma hydration_loop_stops (fuel : nat) (total ml t : Z) (schedule : list (Z * Z)) :
  0 < fuel -> (total < t)%Z ->
  hydration_loop fuel total ml t schedule = Ret schedule.
Proof.
  intros Hfuel Ht. destruct fuel as [| fuel]; [lia |]. simpl.
  now rewrite (proj2 (Z.leb_gt t total)) by lia.
Qed.

Lemma hydration_loop_never_raises (fuel : nat) (total ml : Z) :
  forall (t : Z) (schedule : list (Z * Z)),
  ~ raises (hydration_loop fuel total ml t schedule).
Proof.
  induction fuel as [| fuel IH]; intros t schedule [e He]; simpl in He.
  - discriminate.
  - destruct (t <=? total)%Z; [| discriminate].
    apply (IH (t + 20)%Z (schedule ++ [(t, ml)])). now exists e.
Qed.

(** C8. For a duration D >= 0 the schedule is (20, A), (40, A), ..., (k, A)
    with k = 20 * (D div 20) the largest multiple of 20 that is <= D; the
    offsets go up by 20 and the amount is A throughout; the schedule is
    empty when D < 20; 90 minutes at 250 ml give four reminders and 15
    minutes none. *)
Theorem hydration_schedule_spec (fuel : nat) (D A : Z) :
  (0 <= D)%Z -> Z.to_nat (D `div` 20) < fuel ->
  hydration_schedule fuel D A = Ret (reminders D A) /\
  length (reminders D A) = Z.to_nat (D `div` 20) /\
  (forall i : nat, i < Z.to_nat (D `div` 20) ->
     reminders D A !! i = Some ((20 * (Z.of_nat i + 1))%Z, A)) /\
  (20 * (D `div` 20) <= D < 20 * (D `div` 20) + 20)%Z /\
  ((D < 20)%Z -> hydration_schedule fuel D A = Ret []) /\
  reminders 90 250 = [(20, 250); (40, 250); (60, 250); (80, 250)]%Z /\
  reminders 15 250 = [].
Proof.
  intros HD Hfuel.
  assert (Hdiv : (0 <= D `div` 20)%Z) by (apply Z.div_pos; lia).
  assert (Hmod : (20 * (D `div` 20) <= D < 20 * (D `div` 20) + 20)%Z).
  { pose proof (Z.div_mod D 20 ltac:(lia)).
    pose proof (Z.mod_pos_bound D 20 ltac:(lia)). lia. }
  assert (Hrun : hydration_schedule fuel D A = Ret (reminders D A)).
  { unfold hydration_schedule.
    rewrite (hydration_loop_runs D A (Z.to_nat (D `div` 20))) by lia.
    simpl. f_equal. unfold reminders.
    rewrite <- seq_shift, <- list_fmap_compose.
    apply list_fmap_ext. intros _ i _. simpl. f_equal. lia. }
  split; [exact Hrun |].
  split; [unfold reminders; now rewrite length_fmap, length_seq |].
  split.
  { intros i Hi. unfold reminders.
    rewrite list_lookup_fmap, lookup_seq_lt by lia. simpl.
    do 2 f_equal. lia. }
  split; [exact Hmod |].
  split; [| split; reflexivity].
  intros Hsmall. rewrite Hrun. unfold reminders.
  now rewrite Z.div_small by lia.
Qed.

Lemma hydration_schedule_spec_witness :
  hydration_schedule 5 90 250 =
    Ret [(20, 250); (40, 250); (60, 250); (80, 250)]%Z.
Proof.
  refine (proj1 (hydration_schedule_spec 5 90 250 _ _)).
  - lia.
  - vm_compute. lia.
Defined.

(** C9, as the specification states it, fails: a negative duration is not
    rejected, the call returns the empty schedule. *)
Lemma hydration_schedule_negative_returns :
  (-5 < 0)%Z /\
  hydration_schedule 1 (-5) 250 = Ret [] /\
  forall fuel : nat, ~ raises (hydration_schedule fuel (-5) 250).
Proof.
  split; [lia |]. split; [reflexivity |].
  intros fuel. apply hydration_loop_never_raises.
Qed.

(** C9, amended. [hydration_schedule] checks nothing: for a negative
    duration it returns the empty schedule, and it raises on no input. *)
Theorem hydration_schedule_unchecked (fuel : nat) (D A : Z) :
  (D < 0)%Z -> 0 < fuel ->
  hydration_schedule fuel D A = Ret [] /\
  ~ raises (hydration_schedule fuel D A).
Proof.
  intros HD Hfuel. split.
  - apply hydration_loop_stops; lia.
  - apply hydration_loop_never_raises.
Qed.

Lemma hydration_schedule_unchecked_witness :
  hydration_schedule 3 (-60) 300 = Ret [] /\
  ~ raises (hydration_schedule 3 (-60) 300).
Proof. apply (hydration_schedule_unchecked 3 (-60) 300); lia. Defined.

(** ** Forecast rows and peak *)

Lemma forecast_row_returns (tz_offset : Z) (h : Hourly) :
  exists row, forecast_row tz_offset h = Ret row /\ annotates h row.
Proof.
  destruct (heat_index_f_total (h_temp h) (default 0%R (h_humidity h)))
    as [[hi Hhi] _].
  unfold forecast_row. rewrite Hhi. cbn [mbind Py_bind py_bind].
  destruct (risk_from_hi (if Rleb 8 (default 0.0%R (h_uvi h))
                          then (hi + 3.0)%R else hi)) as [r e] eqn:Hrisk.
  eexists. split; [reflexivity |].
  unfold annotates; cbn [ts temp_f rh uvi hi_f risk].
  repeat split; try reflexivity.
  - replace 0.0%R with 0%R by lra. reflexivity.
  - exists hi. split; [exact Hhi |].
    replace 0.0%R with 0%R by lra.
    split; intros Huv.
    + rewrite (proj2 (Rleb_true_iff 8 _)) by (revert Huv; replace 0.0%R with 0%R by lra; tauto).
      lra.
    + rewrite (proj2 (Rleb_false_iff 8 _)) by exact Huv. reflexivity.
  - now rewrite Hrisk.
Qed.

Lemma forecast_rows_returns (tz_offset : Z) (hourly : list Hourly) :
  forall acc : list Row,
  exists rows, forecast_rows tz_offset hourly acc = Ret (acc ++ rows) /\
    Forall2 annotates hourly rows.
Proof.
  induction hourly as [| h hourly IH]; intros acc; simpl forecast_rows.
  - exists []. split; [now rewrite app_nil_r | constructor].
  - destruct (forecast_row_returns tz_offset h) as [row [Hrow Hann]].
    rewrite Hrow. cbn [mbind Py_bind py_bind].
    destruct (IH (acc ++ [row])) as [rows [Hrows Hall]].
    exists (row :: rows). split.
    + rewrite Hrows. now rewrite <- app_assoc.
    + now constructor.
Qed.

(** One step of [max]: keep the candidate unless the next key is greater. *)
Lemma py_max_first_maximum (x : Row) (items : list Row) :
  first_maximum (x :: items)
    (fold_left (fun best y => if Rltb (hi_f best) (hi_f y) then y else best)
               items x).
Proof.
  induction items as [| y items IH] using rev_ind.
  - simpl. exists 0. split; [reflexivity |]. split.
    + intros [| j] r Hj; simpl in Hj; [injection Hj as <-; lra | discriminate].
    + intros j r Hj. lia.
  - rewrite fold_left_app. simpl.
    set (best := fold_left _ items x) in *.
    destruct IH as [i [Hi [Hmax Hfirst]]].
    assert (Hlen : i < length (x :: items)) by (eapply lookup_lt_Some; eauto).
    destruct (Rltb (hi_f best) (hi_f y)) eqn:Hcmp.
    + apply Rltb_true_iff in Hcmp.
      exists (length (x :: items)). split; [| split].
      * change (x :: items ++ [y]) with ((x :: items) ++ [y]).
        rewrite lookup_app_r by lia. now rewrite Nat.sub_diag.
      * intros j r Hj. change (x :: items ++ [y]) with ((x :: items) ++ [y]) in Hj.
        apply lookup_app_Some in Hj as [Hj | [_ Hj]].
        -- specialize (Hmax j r Hj). lra.
        -- destruct (j - length (x :: items)) as [| n]; simpl in Hj;
             [injection Hj as <-; lra | discriminate].
      * intros j r Hlt Hj. change (x :: items ++ [y]) with ((x :: items) ++ [y]) in Hj.
        rewrite lookup_app_l in Hj by lia.
        specialize (Hmax j r Hj). lra.
    + apply Rltb_false_iff in Hcmp.
      exists i. split; [| split].
      * change (x :: items ++ [y]) with ((x :: items) ++ [y]).
        now rewrite lookup_app_l by lia.
      * intros j r Hj. change (x :: items ++ [y]) with ((x :: items) ++ [y]) in Hj.
        apply lookup_app_Some in Hj as [Hj | [_ Hj]].
        -- now apply (Hmax j r).
        -- destruct (j - length (x :: items)) as [| n]; simpl in Hj;
             [injection Hj as <-; lra | discriminate].
      * intros j r Hlt Hj. change (x :: items ++ [y]) with ((x :: items) ++ [y]) in Hj.
        rewrite lookup_app_l in Hj by lia.
        now apply (Hfirst j r).
Qed.

Lemma process_forecast_nonempty (tz_offset : Z) (hourly : list Hourly) :
  hourly <> [] ->
  exists rows peak,
    process_forecast tz_offset hourly =
      Ret (Peak rows peak (risk peak) (py_round (hi_f peak))) /\
    Forall2 annotates hourly rows /\
    first_maximum rows peak.
Proof.
  intros Hne. unfold process_forecast.
  rewrite bool_decide_eq_false_2 by exact Hne.
  destruct (forecast_rows_returns tz_offset hourly []) as [rows [Hrows Hall]].
  rewrite Hrows. cbn [mbind Py_bind py_bind app].
  destruct rows as [| x items].
  - apply Forall2_nil_inv_r in Hall. contradiction.
  - eexists _, _. split; [reflexivity |]. split; [exact Hall |].
    apply py_max_first_maximum.
Qed.

(** C2. For a non-empty list of readings the forecast step returns one row
    per reading, in the order of the readings; each row carries the heat
    index of its temperature and humidity, plus exactly 3 when its UV index
    is at least 8 and unchanged otherwise, and the class of that value; the
    peak is the row with the greatest heat index, the first such row when
    several share it. *)
Theorem process_forecast_rows_and_peak (tz_offset : Z) (hourly : list Hourly) :
  hourly <> [] ->
  exists rows peak,
    process_forecast tz_offset hourly =
      Ret (Peak rows peak (risk peak) (py_round (hi_f peak))) /\
    length rows = length hourly /\
    Forall2 annotates hourly rows /\
    first_maximum rows peak.
Proof.
  intros Hne.
  destruct (process_forecast_nonempty tz_offset hourly Hne)
    as [rows [peak [Hrun [Hall Hpeak]]]].
  exists rows, peak. repeat split; try assumption.
  symmetry. eapply Forall2_length; eauto.
Qed.

Lemma process_forecast_rows_and_peak_witness :
  exists rows peak,
    process_forecast 0 [mkHourly 1700000000 100 (Some 50%R) (Some 9%R)] =
      Ret (Peak rows peak (risk peak) (py_round (hi_f peak))) /\
    length rows = 1 /\
    Forall2 annotates [mkHourly 1700000000 100 (Some 50%R) (Some 9%R)] rows /\
    first_maximum rows peak.
Proof.
  apply (process_forecast_rows_and_peak 0
           [mkHourly 1700000000 100 (Some 50%R) (Some 9%R)]).
  discriminate.
Defined.

(** C3. With no hourly reading the forecast step reports the explicit
    message "No hourly forecast returned." and computes no peak; the script
    shows that message, and [max] is never reached with an empty list: the
    forecast step raises on no input. *)
Theorem process_forecast_empty (tz_offset : Z) :
  process_forecast tz_offset [] = Ret (NoHourly "No hourly forecast returned.") /\
  (forall (fuel : nat) (role : string) (duration : Z),
     try_analyze fuel role duration tz_offset [] =
       Ret (StError "No hourly forecast returned.")) /\
  (forall hourly : list Hourly, ~ raises (process_forecast tz_offset hourly)).
Proof.
  split; [reflexivity |]. split; [reflexivity |].
  intros hourly [e He].
  destruct hourly as [| h hourly]; [discriminate |].
  destruct (process_forecast_nonempty tz_offset (h :: hourly) ltac:(discriminate))
    as [rows [peak [Hrun _]]].
  rewrite Hrun in He. discriminate.
Qed.

(** ** Safe windows *)

(** *** The loops compute [runs_of] *)

Lemma py_index_Some {A : Type} (l : list A) (i : nat) (x : A) :
  l !! i = Some x -> py_index l i = Ret x.
Proof. intros H. unfold py_index. now rewrite H. Qed.

Lemma extend_window_runs (g : list nat) (s : nat) :
  forall (fuel i e : nat),
  g !! i = Some e -> length g - i <= fuel ->
  exists i' e',
    extend_window fuel g i e = Ret (i', e') /\
    i <= i' /\ g !! i' = Some e' /\
    runs_from s e (drop (S i) g) = (s, e') :: runs_of (drop (S i') g).
Proof.
  induction fuel as [| fuel IH]; intros i e Hi Hfuel.
  - apply lookup_lt_Some in Hi. lia.
  - cbn [extend_window].
    destruct (i + 1 <? length g) eqn:Hlt.
    + apply Nat.ltb_lt in Hlt.
      destruct (lookup_lt_is_Some_2 g (i + 1) Hlt) as [next Hnext].
      assert (Hdrop : drop (S i) g = next :: drop (S (S i)) g).
      { apply drop_S. rewrite <- Hnext. f_equal. lia. }
      rewrite (py_index_Some g (i + 1) next Hnext). cbn [mbind Py_bind py_bind].
      destruct (next =? e + 1) eqn:Hc.
      * destruct (IH (i + 1) next Hnext ltac:(lia)) as (i' & e' & Hrun & Hle & Hi' & Hruns).
        exists i', e'. rewrite Hrun.
        split; [reflexivity |]. split; [lia |]. split; [exact Hi' |].
        rewrite Hdrop. cbn [runs_from]. rewrite Hc.
        replace (S (S i)) with (S (i + 1)) by lia. exact Hruns.
      * exists i, e. split; [reflexivity |]. split; [lia |]. split; [exact Hi |].
        rewrite Hdrop. cbn [runs_from runs_of]. now rewrite Hc.
    + apply Nat.ltb_ge in Hlt.
      exists i, e. split; [reflexivity |]. split; [lia |]. split; [exact Hi |].
      rewrite drop_ge by lia. reflexivity.
Qed.

Lemma window_loop_runs (rows : list Row) (g : list nat) :
  (forall k, k ∈ g -> is_Some (rows !! k)) ->
  forall (fuel i : nat) (windows : list (Z * Z)),
  length g - i < fuel ->
  exists ws,
    window_loop fuel rows g i windows = Ret (windows ++ ws) /\
    Forall2 (spans rows) (runs_of (drop i g)) ws.
Proof.
  intros Hrows.
  induction fuel as [| fuel IH]; intros i windows Hfuel; [lia |].
  cbn [window_loop].
  destruct (i <? length g) eqn:Hlt.
  - apply Nat.ltb_lt in Hlt.
    destruct (lookup_lt_is_Some_2 g i Hlt) as [s Hs].
    destruct (extend_window_runs g s fuel i s Hs ltac:(lia))
      as (i' & e' & Hrun & Hle & Hi' & Hruns).
    destruct (Hrows s) as [first Hfirst]; [eapply list_elem_of_lookup_2; eauto |].
    destruct (Hrows e') as [last Hlast]; [eapply list_elem_of_lookup_2; eauto |].
    destruct (IH (i' + 1) (windows ++ [(ts first, ts last)]) ltac:(lia))
      as (ws & Hloop & Hspans).
    exists ((ts first, ts last) :: ws).
    rewrite (py_index_Some g i s Hs). cbn [mbind Py_bind py_bind].
    rewrite Hrun. cbn [mbind Py_bind py_bind].
    rewrite (py_index_Some rows s first Hfirst). cbn [mbind Py_bind py_bind].
    rewrite (py_index_Some rows e' last Hlast). cbn [mbind Py_bind py_bind].
    rewrite Hloop. split; [now rewrite <- app_assoc |].
    rewrite (drop_S g s i Hs). cbn [runs_of]. rewrite Hruns.
    constructor.
    + exists first, last. auto.
    + replace (S i') with (i' + 1) by lia. exact Hspans.
  - apply Nat.ltb_ge in Hlt.
    exists []. split; [now rewrite app_nil_r |].
    rewrite drop_ge by lia. constructor.
Qed.

(** *** The index list *)

Lemma good_idxs_from (rows : list Row) :
  forall n : nat,
  fst <$> List.filter (fun p => is_good (snd p))
                      (imap (fun i rw => (n + i, rw)) rows)
  = good_from n rows.
Proof.
  induction rows as [| rw rows IH]; intros n; [reflexivity |].
  rewrite imap_cons. cbn [List.filter snd good_from].
  rewrite (imap_ext _ (fun i rw => (S n + i, rw)))
    by (intros i x _; cbn; f_equal; lia).
  destruct (is_good rw).
  - cbn [fmap list_fmap fst]. rewrite Nat.add_0_r. f_equal. apply IH.
  - apply IH.
Qed.

Lemma good_idxs_of_good_from (rows : list Row) :
  good_idxs_of rows = good_from 0 rows.
Proof. unfold good_idxs_of. now rewrite <- good_idxs_from. Qed.

Lemma good_from_elem (rows : list Row) :
  forall n k : nat,
  k ∈ good_from n rows <-> n <= k /\ good_at rows (k - n).
Proof.
  unfold good_at.
  induction rows as [| rw rows IH]; intros n k; cbn [good_from].
  - rewrite elem_of_nil. split; [tauto |].
    intros [_ [r [Hr _]]]. discriminate.
  - assert (Htail : k ∈ good_from (S n) rows <->
              n < k /\ exists r, (rw :: rows) !! (k - n) = Some r /\ is_good r = true).
    { rewrite IH. split.
      - intros [Hle [r [Hr Hg]]]. split; [lia |]. exists r. split; [| exact Hg].
        replace (k - n) with (S (k - S n)) by lia. exact Hr.
      - intros [Hlt [r [Hr Hg]]]. split; [lia |]. exists r. split; [| exact Hg].
        replace (k - n) with (S (k - S n)) in Hr by lia. exact Hr. }
    destruct (is_good rw) eqn:Hrw.
    + rewrite elem_of_cons, Htail. split.
      * intros [-> | [Hlt Hr]]; [| split; [lia | exact Hr]].
        split; [lia |]. exists rw. now rewrite Nat.sub_diag.
      * intros [Hle Hr]. destruct (decide (k = n)) as [-> | Hne]; [now left |].
        right. split; [lia | exact Hr].
    + rewrite Htail. split.
      * intros [Hlt Hr]. split; [lia | exact Hr].
      * intros [Hle [r [Hr Hg]]].
        destruct (decide (k = n)) as [-> | Hne].
        -- rewrite Nat.sub_diag in Hr. injection Hr as <-. congruence.
        -- split; [lia |]. now exists r.
Qed.

Lemma good_from_sorted (rows : list Row) :
  forall n : nat, StronglySorted lt (good_from n rows).
Proof.
  induction rows as [| rw rows IH]; intros n; cbn [good_from]; [constructor |].
  destruct (is_good rw); [| apply IH].
  constructor; [apply IH |].
  apply Forall_forall. intros k Hk. apply good_from_elem in Hk. lia.
Qed.

Lemma good_from_length (rows : list Row) :
  forall n : nat, length (good_from n rows) <= length rows.
Proof.
  induction rows as [| rw rows IH]; intros n; cbn [good_from length]; [lia |].
  destruct (is_good rw); cbn [length]; specialize (IH (S n)); lia.
Qed.

Lemma good_idxs_elem (rows : list Row) (k : nat) :
  k ∈ good_idxs_of rows <-> good_at rows k.
Proof.
  rewrite good_idxs_of_good_from, good_from_elem, Nat.sub_0_r.
  split; [tauto | intros H; split; [lia | exact H]].
Qed.

(** *** The runs are the maximal runs *)

Lemma maximal_run_unique (rows : list Row) (s e s' e' : nat) :
  maximal_run rows s e -> maximal_run rows s' e' ->
  s <= s' <= e -> s' = s /\ e' = e.
Proof.
  intros (Hse & Hall & Hleft & Hright) (Hse' & Hall' & Hleft' & Hright') Hin.
  assert (Hs : s' = s).
  { destruct (decide (s' = s)) as [-> | Hne]; [reflexivity |].
    exfalso. apply (Hleft' (s' - 1)); [lia |]. apply Hall. lia. }
  subst s'. split; [reflexivity |].
  destruct (Nat.lt_trichotomy e' e) as [Hlt | [-> | Hgt]]; [| reflexivity |].
  - exfalso. apply Hright'. apply Hall. lia.
  - exfalso. apply Hright. apply Hall'. lia.
Qed.

Section RunsFrom.
Variable rows : list Row.

Lemma lists_good_after_tail (e x : nat) (g : list nat) :
  lists_good_after rows e (x :: g) -> lists_good_after rows x g.
Proof.
  intros [Hsorted Hmem].
  apply StronglySorted_cons in Hsorted as [Hlt Hsorted].
  split; [exact Hsorted |].
  intros k. split.
  - intros Hk. split.
    + rewrite Forall_forall in Hlt. now apply Hlt.
    + apply (Hmem k). now right.
  - intros [Hxk Hgood].
    assert (Hex : e < x) by (apply (Hmem x); now left).
    assert (Hk : k ∈ x :: g) by (apply Hmem; split; [lia | exact Hgood]).
    apply elem_of_cons in Hk as [-> | Hk]; [lia | exact Hk].
Qed.

Lemma lists_good_after_head (e x : nat) (g : list nat) :
  lists_good_after rows e (x :: g) ->
  e < x /\ good_at rows x /\ forall k, e < k -> good_at rows k -> x <= k.
Proof.
  intros [Hsorted Hmem].
  apply StronglySorted_cons in Hsorted as [Hlt _].
  destruct (proj1 (Hmem x) ltac:(now left)) as [Hex Hgx].
  split; [exact Hex |]. split; [exact Hgx |].
  intros k Hek Hgk.
  assert (Hk : k ∈ x :: g) by (apply Hmem; split; assumption).
  apply elem_of_cons in Hk as [-> | Hk]; [lia |].
  rewrite Forall_forall in Hlt. specialize (Hlt k Hk). lia.
Qed.

Lemma runs_from_maximal (g : list nat) :
  forall s e : nat,
  s <= e ->
  (forall k, s <= k <= e -> good_at rows k) ->
  (forall k, S k = s -> ~ good_at rows k) ->
  lists_good_after rows e g ->
  forall s' e' : nat,
  (s', e') ∈ runs_from s e g <-> s <= s' /\ maximal_run rows s' e'.
Proof.
  induction g as [| x g IH]; intros s e Hse Hall Hleft Hg s' e'.
  - assert (Hnone : forall k, e < k -> ~ good_at rows k).
    { intros k Hk Hgood. destruct Hg as [_ Hmem].
      apply (elem_of_nil k). apply Hmem. split; assumption. }
    assert (Hrun : maximal_run rows s e).
    { split; [exact Hse |]. split; [exact Hall |]. split; [exact Hleft |].
      apply Hnone. lia. }
    cbn [runs_from]. rewrite list_elem_of_singleton. split.
    + intros [= -> ->]. split; [lia | exact Hrun].
    + intros [Hs' Hrun'].
      assert (Hin : s' <= e).
      { destruct (le_lt_dec s' e) as [H | H]; [exact H |].
        exfalso. apply (Hnone s' H).
        destruct Hrun' as (? & Hall' & _). apply Hall'. lia. }
      destruct (maximal_run_unique rows s e s' e' Hrun Hrun' ltac:(lia))
        as [-> ->]. reflexivity.
  - destruct (lists_good_after_head e x g Hg) as (Hex & Hgx & Hmin).
    pose proof (lists_good_after_tail e x g Hg) as Hg'.
    cbn [runs_from]. destruct (x =? e + 1) eqn:Hc.
    + apply Nat.eqb_eq in Hc.
      apply IH; try assumption; [lia |].
      intros k Hk. destruct (decide (k = x)) as [-> | Hne]; [exact Hgx |].
      apply Hall. lia.
    + apply Nat.eqb_neq in Hc.
      assert (Hrun : maximal_run rows s e).
      { split; [exact Hse |]. split; [exact Hall |]. split; [exact Hleft |].
        intros Hgood. specialize (Hmin (S e) ltac:(lia) Hgood). lia. }
      assert (IHx : (s', e') ∈ runs_from x x g <->
                    x <= s' /\ maximal_run rows s' e').
      { apply IH; try assumption; [lia | |].
        - intros k Hk. replace k with x by lia. exact Hgx.
        - intros k Hk Hgood. specialize (Hmin k ltac:(lia) Hgood). lia. }
      rewrite elem_of_cons, IHx. split.
      * intros [[= -> ->] | [Hx Hrun']]; [split; [lia | exact Hrun] |].
        split; [lia | exact Hrun'].
      * intros [Hs' Hrun'].
        destruct (le_lt_dec s' e) as [Hin | Hout].
        -- left.
           destruct (maximal_run_unique rows s e s' e' Hrun Hrun' ltac:(lia))
             as [-> ->]. reflexivity.
        -- right. split; [| exact Hrun'].
           apply Hmin; [exact Hout |].
           destruct Hrun' as (? & Hall' & _). apply Hall'. lia.
Qed.

Lemma runs_from_apart (g : list nat) :
  forall s e : nat,
  s <= e -> StronglySorted lt g -> (forall k, k ∈ g -> e < k) ->
  StronglySorted apart (runs_from s e g) /\
  Forall (fun r => s <= fst r /\ fst r <= snd r) (runs_from s e g).
Proof.
  induction g as [| x g IH]; intros s e Hse Hsorted Hafter; cbn [runs_from].
  - split; [repeat constructor |]. repeat constructor; cbn; lia.
  - apply StronglySorted_cons in Hsorted as [Hlt Hsorted].
    rewrite Forall_forall in Hlt.
    assert (Hex : e < x) by (apply Hafter; now left).
    destruct (x =? e + 1) eqn:Hc.
    + apply IH; [lia | exact Hsorted | exact Hlt].
    + apply Nat.eqb_neq in Hc.
      destruct (IH x x ltac:(lia) Hsorted Hlt) as [Hss Hbound].
      split.
      * constructor; [exact Hss |].
        eapply Forall_impl; [exact Hbound |].
        intros r [Hr _]. unfold apart. cbn. lia.
      * constructor; [cbn; lia |].
        eapply Forall_impl; [exact Hbound |].
        intros r [Hr1 Hr2]. lia.
Qed.
End RunsFrom.

Lemma StronglySorted_lookup_lt {A : Type} (R : A -> A -> Prop) (l : list A) :
  StronglySorted R l ->
  forall (i j : nat) (a b : A),
  i < j -> l !! i = Some a -> l !! j = Some b -> R a b.
Proof.
  induction 1 as [| x l Hss IH Hall]; intros i j a b Hij Hi Hj; [discriminate |].
  destruct j as [| j]; [lia |]. cbn in Hj.
  destruct i as [| i]; cbn in Hi.
  - injection Hi as <-. rewrite Forall_forall in Hall.
    apply Hall. eapply list_elem_of_lookup_2; eauto.
  - apply (IH i j); [lia | assumption | assumption].
Qed.

Lemma runs_of_good_idxs (rows : list Row) :
  (forall s e, (s, e) ∈ runs_of (good_idxs_of rows) <-> maximal_run rows s e) /\
  StronglySorted apart (runs_of (good_idxs_of rows)) /\
  Forall (fun r => fst r <= snd r) (runs_of (good_idxs_of rows)).
Proof.
  pose proof (good_from_sorted rows 0) as Hsorted.
  pose proof (good_idxs_elem rows) as Hmem.
  rewrite good_idxs_of_good_from in *.
  destruct (good_from 0 rows) as [| x g] eqn:Hg; cbn [runs_of].
  - split; [| split; constructor].
    intros s e. rewrite elem_of_nil. split; [tauto |].
    intros (Hse & Hall & _). apply (elem_of_nil s). apply Hmem, Hall. lia.
  - assert (Hgx : good_at rows x) by (apply Hmem; now left).
    assert (Hmin : forall k, good_at rows k -> x <= k).
    { intros k Hk. apply Hmem in Hk. apply elem_of_cons in Hk as [-> | Hk]; [lia |].
      apply StronglySorted_cons in Hsorted as [Hlt _].
      rewrite Forall_forall in Hlt. specialize (Hlt k Hk). lia. }
    assert (Hafter : lists_good_after rows x g).
    { apply StronglySorted_cons in Hsorted as [Hlt Hss].
      rewrite Forall_forall in Hlt.
      split; [exact Hss |]. intros k. split.
      - intros Hk. split; [now apply Hlt |]. apply Hmem. now right.
      - intros [Hxk Hgood]. apply Hmem in Hgood.
        apply elem_of_cons in Hgood as [-> | Hk]; [lia | exact Hk]. }
    split; [| split].
    + intros s e.
      rewrite (runs_from_maximal rows g x x); try assumption; try lia.
      * split; [tauto |]. intros Hrun. split; [| exact Hrun].
        apply Hmin. destruct Hrun as (? & Hall & _). apply Hall. lia.
      * intros k Hk. replace k with x by lia. exact Hgx.
      * intros k Hk Hgood. specialize (Hmin k Hgood). lia.
    + apply runs_from_apart; [lia | apply Hafter |].
      intros k Hk. now apply Hafter in Hk.
    + eapply Forall_impl;
        [apply (runs_from_apart g x x); [lia | apply Hafter |] |].
      * intros k Hk. now apply Hafter in Hk.
      * intros r [_ Hr]. exact Hr.
Qed.

Lemma merge_safe_windows_returns (fuel : nat) (rows : list Row) :
  length rows < fuel ->
  exists windows,
    merge_safe_windows fuel rows = Ret windows /\
    Forall2 (spans rows) (runs_of (good_idxs_of rows)) windows.
Proof.
  intros Hfuel. unfold merge_safe_windows.
  assert (Hrows : forall k, k ∈ good_idxs_of rows -> is_Some (rows !! k)).
  { intros k Hk. apply good_idxs_elem in Hk as [rw [Hrw _]]. now exists rw. }
  assert (Hlen : length (good_idxs_of rows) - 0 < fuel).
  { rewrite good_idxs_of_good_from.
    pose proof (good_from_length rows 0). lia. }
  destruct (window_loop_runs rows (good_idxs_of rows) Hrows fuel 0 [] Hlen)
    as (ws & Hloop & Hspans).
  exists ws. split; [exact Hloop | exact Hspans].
Qed.

(** The window at position [i] spans the run at position [i]. *)
Lemma window_of_run (rows : list Row) (runs : list (nat * nat))
    (windows : list (Z * Z)) (i : nat) (w : Z * Z) :
  Forall2 (spans rows) runs windows -> windows !! i = Some w ->
  exists s e first last,
    runs !! i = Some (s, e) /\
    rows !! s = Some first /\ rows !! e = Some last /\
    w = (ts first, ts last).
Proof.
  intros Hspans Hw.
  destruct (Forall2_lookup_r _ _ _ _ _ Hspans Hw) as ([s e] & Hrun & Hspan).
  destruct Hspan as (first & last & Hfirst & Hlast & ->).
  exists s, e, first, last. auto.
Qed.

(** C4, as the specification states it, fails when two rows share a
    timestamp: Low, High, Low at the same second give two separate windows
    that are the same interval. *)
Lemma merge_safe_windows_overlap_on_equal_ts :
  nondecreasing_ts [row_at 5 Low; row_at 5 High; row_at 5 Low] /\
  merge_safe_windows 4 [row_at 5 Low; row_at 5 High; row_at 5 Low] =
    Ret [(5, 5); (5, 5)]%Z /\
  ~ pairwise_disjoint [(5, 5); (5, 5)]%Z.
Proof.
  split; [| split].
  - intros i j ri rj _ Hi Hj.
    assert (Hall : Forall (fun r => ts r = 5%Z)
                     [row_at 5 Low; row_at 5 High; row_at 5 Low])
      by (repeat constructor).
    rewrite Forall_lookup in Hall.
    rewrite (Hall i ri Hi), (Hall j rj Hj). lia.
  - vm_compute. reflexivity.
  - intros Hdis. apply (Hdis 0 1 (5, 5)%Z (5, 5)%Z); [lia | reflexivity | reflexivity |].
    exists 5%Z. cbn. lia.
Qed.

(** C4, amended. The merge returns one window per maximal run of
    Low/Moderate rows that are consecutive in the row list, in the order of
    the rows, each window made of the timestamps of the first and last row
    of its run; two runs are separated by at least one other row; with no
    Low/Moderate row the result is empty.  With nondecreasing timestamps
    every window has start <= end and ends no later than the next one
    starts; the windows are pairwise without a common point when the
    timestamps are strictly increasing. *)
Theorem merge_safe_windows_maximal_runs (fuel : nat) (rows : list Row) :
  length rows < fuel ->
  exists (runs : list (nat * nat)) (windows : list (Z * Z)),
    merge_safe_windows fuel rows = Ret windows /\
    Forall2 (spans rows) runs windows /\
    (forall s e, (s, e) ∈ runs <-> maximal_run rows s e) /\
    (forall (i j : nat) (r1 r2 : nat * nat),
       i < j -> runs !! i = Some r1 -> runs !! j = Some r2 ->
       S (snd r1) < fst r2) /\
    ((forall k, ~ good_at rows k) -> windows = []) /\
    (nondecreasing_ts rows ->
       Forall (fun w => (fst w <= snd w)%Z) windows /\ in_order windows) /\
    (increasing_ts rows -> pairwise_disjoint windows).
Proof.
  intros Hfuel.
  destruct (merge_safe_windows_returns fuel rows Hfuel) as (windows & Hrun & Hspans).
  destruct (runs_of_good_idxs rows) as (Hmax & Hapart & Hle).
  exists (runs_of (good_idxs_of rows)), windows.
  split; [exact Hrun |]. split; [exact Hspans |]. split; [exact Hmax |].
  split; [apply (StronglySorted_lookup_lt apart _ Hapart) |].
  rewrite Forall_lookup in Hle.
  split; [| split].
  - intros Hnone.
    assert (Hnil : good_idxs_of rows = []).
    { apply elem_of_nil_inv. intros k Hk. apply (Hnone k).
      now apply good_idxs_elem. }
    rewrite Hnil in Hspans. cbn in Hspans.
    now apply Forall2_nil_inv_l in Hspans.
  - intros Hts. split.
    + apply Forall_lookup. intros i w Hw.
      destruct (window_of_run _ _ _ i w Hspans Hw)
        as (s & e & first & last & Hi & Hfirst & Hlast & ->).
      specialize (Hle i (s, e) Hi). cbn in *.
      apply (Hts s e first last); assumption.
    + intros i j w1 w2 Hij Hw1 Hw2.
      destruct (window_of_run _ _ _ i w1 Hspans Hw1)
        as (s1 & e1 & first1 & last1 & Hi & Hfirst1 & Hlast1 & ->).
      destruct (window_of_run _ _ _ j w2 Hspans Hw2)
        as (s2 & e2 & first2 & last2 & Hj & Hfirst2 & Hlast2 & ->).
      pose proof (StronglySorted_lookup_lt apart _ Hapart i j _ _ Hij Hi Hj) as Hsep.
      unfold apart in Hsep. cbn in *.
      apply (Hts e1 s2 last1 first2); [lia | assumption | assumption].
  - intros Hts i j w1 w2 Hij Hw1 Hw2 [t [H1 H2]].
    destruct (window_of_run _ _ _ i w1 Hspans Hw1)
      as (s1 & e1 & first1 & last1 & Hi & Hfirst1 & Hlast1 & ->).
    destruct (window_of_run _ _ _ j w2 Hspans Hw2)
      as (s2 & e2 & first2 & last2 & Hj & Hfirst2 & Hlast2 & ->).
    pose proof (StronglySorted_lookup_lt apart _ Hapart i j _ _ Hij Hi Hj) as Hsep.
    unfold apart in Hsep. cbn in *.
    pose proof (Hts e1 s2 last1 first2 ltac:(lia) Hlast1 Hfirst2). lia.
Qed.

Lemma merge_safe_windows_maximal_runs_witness :
  exists (runs : list (nat * nat)) (windows : list (Z * Z)),
    merge_safe_windows 5 [row_at 0 Low; row_at 3600 Moderate;
                          row_at 7200 High; row_at 10800 Low] = Ret windows /\
    Forall2 (spans [row_at 0 Low; row_at 3600 Moderate;
                    row_at 7200 High; row_at 10800 Low]) runs windows.
Proof.
  destruct (merge_safe_windows_maximal_runs 5
              [row_at 0 Low; row_at 3600 Moderate;
               row_at 7200 High; row_at 10800 Low])
    as (runs & windows & Hrun & Hspans & _).
  - cbn. lia.
  - exists runs, windows. split; assumption.
Defined.

(** ** Sample runs *)

Example merge_safe_windows_alternating :
  merge_safe_windows 5 [row_at 0 Low; row_at 3600 High;
                        row_at 7200 Low; row_at 10800 High] =
    Ret [(0, 0); (7200, 7200)]%Z.
Proof. vm_compute. reflexivity. Qed.

Example merge_safe_windows_all_low :
  merge_safe_windows 4 [row_at 0 Low; row_at 3600 Low; row_at 7200 Low] =
    Ret [(0, 7200)]%Z.
Proof. vm_compute. reflexivity. Qed.

Example merge_safe_windows_none :
  merge_safe_windows 3 [row_at 0 High; row_at 3600 Extreme] = Ret [].
Proof. vm_compute. reflexivity. Qed.

Example hydration_schedule_15 : hydration_schedule 1 15 250 = Ret [].
Proof. reflexivity. Qed.

Example fmt_hour_sample : fmt_hour 1700000000 (-25200) = "3PM".
Proof. vm_compute. reflexivity. Qed.

(** A reading of 100 F, 50 % humidity and UV index 9: the polynomial plus
    the bump of 3, which falls in the class High. *)
Example forecast_row_100_50_9 :
  exists row,
    forecast_row 0 (mkHourly 1700000000 100 (Some 50%R) (Some 9%R)) = Ret row /\
    hi_f row = (rothfusz 100 50 + 3)%R /\ risk row = High.
Proof.
  destruct (forecast_row_returns 0 (mkHourly 1700000000 100 (Some 50%R) (Some 9%R)))
    as (row & Hrow & _ & Htemp & Hrh & Huvi & (hi & Hhi & Hbump & _) & Hrisk).
  cbn in Htemp, Hrh, Huvi. rewrite Htemp, Hrh in Hhi.
  rewrite heat_index_f_plain in Hhi
    by (unfold low_humidity, high_humidity; lra).
  injection Hhi as <-.
  assert (Hhi : hi_f row = (rothfusz 100 50 + 3)%R) by (apply Hbump; lra).
  exists row. split; [exact Hrow |]. split; [exact Hhi |].
  rewrite Hrisk, Hhi.
  apply (risk_from_hi_bounds (rothfusz 100 50 + 3)).
  rewrite rothfusz_unfold. simpl pow. lra.
Qed.

(** * Further properties of the script *)

(** ** Temperature conversion *)

(** X1. Both conversions keep the order of temperatures (a warmer reading
    never converts to a colder one) and agree on the fixed points of the
    two scales: 32 F is 0 C, 212 F is 100 C, and -40 is -40 on both. *)
Theorem f_to_c_c_to_f_order (x y : R) :
  ((x <= y)%R -> (f_to_c x <= f_to_c y)%R) /\
  ((x <= y)%R -> (c_to_f x <= c_to_f y)%R) /\
  f_to_c 32 = 0%R /\ c_to_f 0 = 32%R /\
  f_to_c 212 = 100%R /\ c_to_f 100 = 212%R /\
  f_to_c (-40) = (-40)%R /\ c_to_f (-40) = (-40)%R.
Proof. unfold c_to_f, f_to_c. repeat split; intros; lra. Qed.

Lemma f_to_c_c_to_f_order_witness :
  (f_to_c 50 <= f_to_c 86)%R /\ (c_to_f 10 <= c_to_f 30)%R.
Proof.
  split.
  - apply (f_to_c_c_to_f_order 50 86). lra.
  - apply (f_to_c_c_to_f_order 10 30). lra.
Defined.

(** ** Heat index, high humidity *)

Lemma high_humidity_adj_nonneg (T RH : R) :
  (85 < RH)%R -> (80 <= T <= 87)%R -> (0 <= high_humidity_adj T RH)%R.
Proof.
  intros HRH HT. unfold high_humidity_adj. apply Rmult_le_pos; lra.
Qed.

(** X2. For RH > 85 and 80 <= T <= 87 the high-humidity adjustment never
    lowers the heat index: the returned value is at least the bare
    polynomial, and equal to it at T = 87, where the adjustment is 0. *)
Theorem high_humidity_at_least_rothfusz (T RH : R) :
  (85 < RH)%R -> (80 <= T <= 87)%R ->
  exists hi, heat_index_f T RH = Ret hi /\
    (rothfusz T RH <= hi)%R /\
    (T = 87%R -> hi = rothfusz T RH).
Proof.
  intros HRH HT. eexists. split.
  - apply heat_index_f_high. unfold high_humidity. lra.
  - pose proof (high_humidity_adj_nonneg T RH HRH HT) as Hadj.
    split; [lra |]. intros ->. unfold high_humidity_adj. lra.
Qed.

Lemma high_humidity_at_least_rothfusz_witness :
  exists hi, heat_index_f 82 90 = Ret hi /\
    (rothfusz 82 90 <= hi)%R /\
    (82%R = 87%R -> hi = rothfusz 82 90).
Proof. apply (high_humidity_at_least_rothfusz 82 90); lra. Defined.

(** ** Rows *)

Lemma risk_from_hi_mono (h1 h2 : R) :
  (h1 <= h2)%R -> risk_le (fst (risk_from_hi h1)) (fst (risk_from_hi h2)).
Proof.
  intros H. unfold risk_from_hi, risk_le.
  Rcases; simpl; try lia; lra.
Qed.

Lemma risk_from_hi_emoji (hi : R) :
  snd (risk_from_hi hi) = peak_emoji (fst (risk_from_hi hi)).
Proof. unfold risk_from_hi. Rcases; reflexivity. Qed.

(** X3. Every reading gives a row (the row step raises on no reading); the
    UV bump moves the heat index up by 0 or 3 and never lowers the risk
    class below that of the unbumped heat index; the row's emoji is the one
    the peak display looks up for the row's class. *)
Theorem forecast_row_bump (tz_offset : Z) (h : Hourly) :
  exists row hi,
    forecast_row tz_offset h = Ret row /\
    heat_index_f (h_temp h) (default 0%R (h_humidity h)) = Ret hi /\
    (hi_f row = hi \/ hi_f row = (hi + 3)%R) /\
    risk_le (fst (risk_from_hi hi)) (risk row) /\
    emoji row = peak_emoji (risk row) /\
    hour row = fmt_hour (h_dt h) tz_offset.
Proof.
  destruct (heat_index_f_total (h_temp h) (default 0%R (h_humidity h)))
    as [[hi Hhi] _].
  unfold forecast_row. rewrite Hhi. cbn [mbind Py_bind py_bind].
  set (HI := if Rleb 8 (default 0.0%R (h_uvi h)) then (hi + 3.0)%R else hi).
  assert (Hbump : HI = hi \/ HI = (hi + 3)%R).
  { unfold HI. destruct (Rleb 8 _); [right; lra | left; reflexivity]. }
  pose proof (risk_from_hi_emoji HI) as Hemoji.
  destruct (risk_from_hi HI) as [r e] eqn:Hrisk. cbn in Hemoji.
  eexists _, hi. split; [reflexivity |]. cbn [hi_f risk emoji hour].
  split; [reflexivity |]. split; [exact Hbump |].
  split; [| split; [exact Hemoji | reflexivity]].
  change r with (fst (r, e)). rewrite <- Hrisk.
  apply risk_from_hi_mono. destruct Hbump as [-> | ->]; lra.
Qed.

(** ** Peak *)

(** X4. The peak risk is the worst risk of the day: no row has a risk
    class above the class of the peak row, and the peak is one of the
    rows. *)
Theorem peak_risk_is_worst (tz_offset : Z) (hourly : list Hourly) :
  hourly <> [] ->
  exists rows peak peak_hi,
    process_forecast tz_offset hourly = Ret (Peak rows peak (risk peak) peak_hi) /\
    peak ∈ rows /\
    forall r, r ∈ rows -> risk_le (risk r) (risk peak).
Proof.
  intros Hne.
  destruct (process_forecast_nonempty tz_offset hourly Hne)
    as (rows & peak & Hrun & Hall & (i & Hi & Hmax & _)).
  assert (Hrisk : forall r, r ∈ rows -> risk r = fst (risk_from_hi (hi_f r))).
  { intros r Hr. apply list_elem_of_lookup_1 in Hr as [j Hj].
    destruct (Forall2_lookup_r _ _ _ _ _ Hall Hj) as (h & _ & Hann).
    apply Hann. }
  assert (Hpeak : peak ∈ rows) by (eapply list_elem_of_lookup_2; eauto).
  exists rows, peak, (py_round (hi_f peak)).
  split; [exact Hrun |]. split; [exact Hpeak |].
  intros r Hr. rewrite (Hrisk r Hr), (Hrisk peak Hpeak).
  apply risk_from_hi_mono.
  apply list_elem_of_lookup_1 in Hr as [j Hj]. now apply (Hmax j).
Qed.

Lemma peak_risk_is_worst_witness :
  exists rows peak peak_hi,
    process_forecast 0 [mkHourly 0 70 None None; mkHourly 3600 100 (Some 50%R) None] =
      Ret (Peak rows peak (risk peak) peak_hi) /\
    peak ∈ rows /\
    forall r, r ∈ rows -> risk_le (risk r) (risk peak).
Proof.
  apply (peak_risk_is_worst 0
           [mkHourly 0 70 None None; mkHourly 3600 100 (Some 50%R) None]).
  discriminate.
Defined.

(** ** Role rules *)

Lemma ROLE_RULES_lookup (role : string) (base : RoleRule) :
  ROLE_RULES !! role = Some base <-> (role, base) ∈ ROLE_RULES_items.
Proof.
  unfold ROLE_RULES. symmetry. apply elem_of_list_to_map.
  unfold ROLE_RULES_items. cbn.
  repeat (constructor; [rewrite ?elem_of_cons, ?elem_of_nil;
                        intros H; repeat destruct H as [H | H];
                        try discriminate; try contradiction |]).
  constructor.
Qed.

(** Case analysis on the four entries of the table. *)
Ltac role_cases H :=
  apply ROLE_RULES_lookup in H; unfold ROLE_RULES_items in H;
  repeat (apply elem_of_cons in H as [H | H]; [injection H as -> -> |]);
  [ .. | apply elem_of_nil in H; contradiction ].

(** X5. A role that is not a key of the table makes [adjust_rules_for_risk]
    raise KeyError with that role, for every risk; for a role of the table
    the call returns and copies the hydration amount and the note from the
    table unchanged. *)
Theorem adjust_rules_for_risk_keys (role : string) (peak_risk : Risk) :
  (ROLE_RULES !! role = None ->
   adjust_rules_for_risk role peak_risk = Raise (KeyError role)) /\
  (forall base, ROLE_RULES !! role = Some base ->
   exists rules, adjust_rules_for_risk role peak_risk = Ret rules /\
     ml_per_20 rules = ml_per_20 base /\ note rules = note base) /\
  (is_Some (ROLE_RULES !! role) <->
   role ∈ ["Student athlete (13–18)"; "Construction";
           "Delivery / courier"; "Elderly outdoors"]).
Proof.
  split; [| split].
  - intros Hnone. unfold adjust_rules_for_risk. now rewrite Hnone.
  - intros base Hbase. unfold adjust_rules_for_risk. rewrite Hbase.
    destruct peak_risk; cbn; eexists; repeat split.
  - split.
    + intros [base Hbase]. role_cases Hbase;
        rewrite ?elem_of_cons; auto 6.
    + rewrite !elem_of_cons, elem_of_nil.
      intros [-> | [-> | [-> | [-> | []]]]]; vm_compute; eauto.
Qed.

Lemma adjust_rules_for_risk_keys_witness :
  adjust_rules_for_risk "Lifeguard" High = Raise (KeyError "Lifeguard").
Proof.
  apply (adjust_rules_for_risk_keys "Lifeguard" High). reflexivity.
Defined.

(** X6. For every role of the table and every risk the adjusted cycle keeps
    its length of 60 minutes (work + rest), with at least 15 minutes of
    work and at most 45 of rest: the lower bounds 20 and 15 on the work
    minutes are reached but never cut the cycle short. *)
Theorem adjusted_cycle_is_an_hour (role : string) (base : RoleRule) (peak_risk : Risk) :
  ROLE_RULES !! role = Some base ->
  exists rules, adjust_rules_for_risk role peak_risk = Ret rules /\
    (work rules + rest rules = 60)%Z /\
    (15 <= work rules <= work base)%Z /\
    (rest base <= rest rules <= 45)%Z.
Proof.
  intros Hbase. unfold adjust_rules_for_risk. rewrite Hbase.
  role_cases Hbase; destruct peak_risk; cbn; eexists;
    (split; [reflexivity |]); cbn; lia.
Qed.

Lemma adjusted_cycle_is_an_hour_witness :
  exists rules, adjust_rules_for_risk "Elderly outdoors" Extreme = Ret rules /\
    (work rules + rest rules = 60)%Z /\
    (15 <= work rules <= 30)%Z /\
    (30 <= rest rules <= 45)%Z.
Proof.
  apply (adjusted_cycle_is_an_hour "Elderly outdoors"
           (mkRule 30 30 200 "Frequent sips; caregiver check.") Extreme).
  reflexivity.
Defined.

(** X7. For every role of the table a higher risk never gives more work
    minutes nor fewer rest minutes. *)
Theorem adjust_rules_monotone (role : string) (base : RoleRule) (r1 r2 : Risk) :
  ROLE_RULES !! role = Some base -> risk_le r1 r2 ->
  exists rules1 rules2,
    adjust_rules_for_risk role r1 = Ret rules1 /\
    adjust_rules_for_risk role r2 = Ret rules2 /\
    (work rules2 <= work rules1)%Z /\ (rest rules1 <= rest rules2)%Z.
Proof.
  intros Hbase Hle. unfold adjust_rules_for_risk. rewrite Hbase.
  unfold risk_le in Hle.
  role_cases Hbase; destruct r1, r2; cbn in Hle; try lia; cbn;
    eexists _, _; (split; [reflexivity |]); (split; [reflexivity |]); cbn; lia.
Qed.

Lemma adjust_rules_monotone_witness :
  exists rules1 rules2,
    adjust_rules_for_risk "Construction" Moderate = Ret rules1 /\
    adjust_rules_for_risk "Construction" Extreme = Ret rules2 /\
    (work rules2 <= work rules1)%Z /\ (rest rules1 <= rest rules2)%Z.
Proof.
  apply (adjust_rules_monotone "Construction"
           (mkRule 40 20 300 "Use shade canopies; rotate tasks.")
           Moderate Extreme).
  - reflexivity.
  - unfold risk_le. cbn. lia.
Defined.

(** ** Hydration plan and reminder ticker *)

Lemma hydration_schedule_returns (fuel : nat) (D A : Z) :
  Z.to_nat (D `div` 20) < fuel ->
  hydration_schedule fuel D A = Ret (reminders D A).
Proof.
  intros Hfuel. unfold hydration_schedule.
  destruct (Z_lt_le_dec D 0) as [Hneg | Hpos].
  - rewrite hydration_loop_stops by lia.
    unfold reminders.
    assert (Hdiv : (D `div` 20 < 0)%Z) by (apply Z.div_lt_upper_bound; lia).
    replace (Z.to_nat (D `div` 20)) with 0 by lia. reflexivity.
  - assert (Hdiv : (0 <= D `div` 20)%Z) by (apply Z.div_pos; lia).
    pose proof (Z.div_mod D 20 ltac:(lia)).
    pose proof (Z.mod_pos_bound D 20 ltac:(lia)).
    rewrite (hydration_loop_runs D A (Z.to_nat (D `div` 20))) by lia.
    simpl. f_equal. unfold reminders.
    rewrite <- seq_shift, <- list_fmap_compose.
    apply list_fmap_ext. intros _ i _. simpl. f_equal. lia.
Qed.

Lemma reminders_elem (D A m a : Z) :
  (m, a) ∈ reminders D A <->
  a = A /\ (20 <= m <= D)%Z /\ (m `mod` 20 = 0)%Z.
Proof.
  unfold reminders. rewrite list_elem_of_fmap. split.
  - intros (i & [= -> ->] & Hi). apply elem_of_seq in Hi.
    assert (Hle : (Z.of_nat i <= D `div` 20)%Z) by lia.
    assert (HD : (0 <= D)%Z).
    { destruct (Z_lt_le_dec D 0) as [Hneg | Hpos]; [| exact Hpos].
      assert ((D `div` 20 < 0)%Z) by (apply Z.div_lt_upper_bound; lia). lia. }
    pose proof (Z.div_mod D 20 ltac:(lia)).
    pose proof (Z.mod_pos_bound D 20 ltac:(lia)).
    split; [reflexivity |]. split; [lia |].
    rewrite Z.mul_comm. apply Z_mod_mult.
  - intros (-> & Hm & Hmod).
    apply Z.mod_divide in Hmod as [k Hk]; [| lia].
    exists (Z.to_nat k). split; [f_equal; lia |].
    apply elem_of_seq.
    assert (Hk' : (k <= D `div` 20)%Z) by (apply Z.div_le_lower_bound; lia).
    lia.
Qed.

(** X8. The hydration note tells the truth: the script writes that the
    session is shorter than 20 minutes exactly when the duration is below
    20; otherwise it lists the reminder minutes, which are exactly the
    multiples of 20 from 20 up to the duration, each reminder with the amount
    passed in. *)
Theorem hydration_note_truthful (fuel : nat) (D A : Z) :
  Z.to_nat (D `div` 20) < fuel ->
  exists sched,
    hydration_schedule fuel D A = Ret sched /\
    (hydration_note sched = StillBringWater <-> (D < 20)%Z) /\
    (forall m a, (m, a) ∈ sched <->
       a = A /\ (20 <= m <= D)%Z /\ (m `mod` 20 = 0)%Z).
Proof.
  intros Hfuel. exists (reminders D A).
  split; [now apply hydration_schedule_returns |].
  split; [| apply reminders_elem].
  split.
  - intros Hnote.
    destruct (Z_lt_le_dec D 20) as [Hlt | Hge]; [exact Hlt |].
    assert (Hin : (20, A)%Z ∈ reminders D A).
    { apply reminders_elem. split; [reflexivity |]. split; [lia | reflexivity]. }
    destruct (reminders D A); [now apply elem_of_nil in Hin | discriminate].
  - intros Hlt.
    destruct (reminders D A) as [| [m a] l] eqn:Hrem; [reflexivity |].
    assert (Hin : (m, a) ∈ reminders D A) by (rewrite Hrem; now left).
    apply reminders_elem in Hin. lia.
Qed.

Lemma hydration_note_truthful_witness :
  exists sched,
    hydration_schedule 2 30 250 = Ret sched /\
    (hydration_note sched = StillBringWater <-> (30 < 20)%Z) /\
    (forall m a, (m, a) ∈ sched <->
       a = 250%Z /\ (20 <= m <= 30)%Z /\ (m `mod` 20 = 0)%Z).
Proof. apply (hydration_note_truthful 2 30 250). vm_compute. lia. Defined.

(** X9. A longer session only adds reminders at the end: the schedule of a
    duration is a prefix of the schedule of every longer duration. *)
Theorem hydration_schedule_prefix (fuel fuel' : nat) (D D' A : Z) :
  (D <= D')%Z ->
  Z.to_nat (D `div` 20) < fuel -> Z.to_nat (D' `div` 20) < fuel' ->
  exists sched sched',
    hydration_schedule fuel D A = Ret sched /\
    hydration_schedule fuel' D' A = Ret sched' /\
    sched `prefix_of` sched'.
Proof.
  intros HD Hfuel Hfuel'. exists (reminders D A), (reminders D' A).
  split; [now apply hydration_schedule_returns |].
  split; [now apply hydration_schedule_returns |].
  unfold reminders.
  assert (Hdiv : (D `div` 20 <= D' `div` 20)%Z) by (apply Z.div_le_mono; lia).
  replace (Z.to_nat (D' `div` 20))
    with (Z.to_nat (D `div` 20) + (Z.to_nat (D' `div` 20) - Z.to_nat (D `div` 20)))
    by lia.
  rewrite seq_app, fmap_app. eexists. reflexivity.
Qed.

Lemma hydration_schedule_prefix_witness :
  exists sched sched',
    hydration_schedule 3 45 250 = Ret sched /\
    hydration_schedule 6 100 250 = Ret sched' /\
    sched `prefix_of` sched'.
Proof.
  apply (hydration_schedule_prefix 3 6 45 100 250); [lia | |]; vm_compute; lia.
Defined.

Lemma next_marks_app (s1 s2 : list (Z * Z)) (elapsed : Z) :
  next_marks (s1 ++ s2) elapsed = next_marks s1 elapsed ++ next_marks s2 elapsed.
Proof. unfold next_marks. now rewrite List.filter_app, fmap_app. Qed.

Lemma next_marks_past (sched : list (Z * Z)) (elapsed : Z) :
  Forall (fun p => (fst p * 60 <= elapsed)%Z) sched ->
  next_marks sched elapsed = [].
Proof.
  unfold next_marks. induction 1 as [| p sched Hp _ IH]; [reflexivity |].
  cbn [List.filter]. rewrite (proj2 (Z.ltb_ge elapsed (fst p * 60))) by exact Hp.
  exact IH.
Qed.

(** X10. While a session of duration D runs, the ticker names the first
    reminder strictly after the elapsed time, 20 * (elapsed div 1200 + 1)
    minutes, as long as that minute is within the session; from then on it
    reports the schedule as complete. *)
Theorem timer_note_next (D A elapsed : Z) :
  (0 <= elapsed)%Z ->
  timer_note (reminders D A) elapsed =
    if (20 * (elapsed `div` 1200 + 1) <=? D)%Z
    then NextReminder (20 * (elapsed `div` 1200 + 1))
    else ScheduleComplete.
Proof.
  intros Hel.
  set (q := (elapsed `div` 1200)%Z).
  assert (Hq : (0 <= q)%Z) by (apply Z.div_pos; lia).
  assert (Hqe : (1200 * q <= elapsed < 1200 * q + 1200)%Z).
  { pose proof (Z.div_mod elapsed 1200 ltac:(lia)).
    pose proof (Z.mod_pos_bound elapsed 1200 ltac:(lia)). subst q. lia. }
  unfold timer_note, reminders.
  set (n := Z.to_nat (D `div` 20)).
  set (mark := fun i : nat => ((20 * Z.of_nat i)%Z, A)).
  assert (Hpast : forall a len, a + len <= S (Z.to_nat q) ->
            next_marks (mark <$> seq a len) elapsed = []).
  { intros a len Hlen. apply next_marks_past.
    apply Forall_fmap, Forall_forall. intros i Hi.
    apply elem_of_seq in Hi. cbn. lia. }
  destruct (20 * (q + 1) <=? D)%Z eqn:Hin.
  - apply Z.leb_le in Hin.
    assert (Hn : Z.to_nat q < n).
    { assert ((q + 1 <= D `div` 20)%Z) by (apply Z.div_le_lower_bound; lia).
      subst n. lia. }
    replace n with (Z.to_nat q + S (n - S (Z.to_nat q))) by lia.
    rewrite seq_app, fmap_app, next_marks_app, Hpast by lia.
    cbn [seq fmap list_fmap app]. unfold next_marks at 1.
    cbn [List.filter mark fst].
    rewrite (proj2 (Z.ltb_lt elapsed (20 * Z.of_nat (1 + Z.to_nat q) * 60))) by lia.
    cbn [fmap list_fmap head fst mark].
    replace (20 * Z.of_nat (1 + Z.to_nat q))%Z with (20 * (q + 1))%Z by lia.
    now rewrite (proj2 (Z.eqb_neq _ 0)) by lia.
  - apply Z.leb_gt in Hin.
    assert (Hn : n <= Z.to_nat q).
    { destruct (Z_lt_le_dec D 0) as [Hneg | Hpos].
      - assert ((D `div` 20 < 0)%Z) by (apply Z.div_lt_upper_bound; lia).
        subst n. lia.
      - assert ((D `div` 20 < q + 1)%Z) by (apply Z.div_lt_upper_bound; lia).
        subst n. lia. }
    rewrite Hpast by lia. reflexivity.
Qed.

Lemma timer_note_next_witness :
  timer_note (reminders 90 250) 1250 =
    if (20 * (1250 `div` 1200 + 1) <=? 90)%Z
    then NextReminder (20 * (1250 `div` 1200 + 1))
    else ScheduleComplete.
Proof. apply (timer_note_next 90 250 1250). lia. Defined.

(** ** Hour labels *)

Lemma hour_of_day_range (secs : Z) : (0 <= hour_of_day secs < 24)%Z.
Proof.
  unfold hour_of_day.
  pose proof (Z.mod_pos_bound secs 86400 ltac:(lia)) as Hmod.
  split.
  - apply Z.div_pos; lia.
  - apply Z.div_lt_upper_bound; lia.
Qed.

Lemma strftime_I_p_hour (secs : Z) :
  strftime_I_p secs =
    pretty (if (hour_of_day secs `mod` 12 =? 0)%Z then 12%Z
            else (hour_of_day secs `mod` 12)%Z)
    +:+ (if (hour_of_day secs <? 12)%Z then "AM" else "PM").
Proof. reflexivity. Qed.

(** X11. The hour label only depends on the local hour of the day: it is
    the same a whole number of days later, moving seconds between the
    timestamp and the timezone offset does not change it, the hours 0 and
    12 are written 12AM and 12PM, and every other hour h is written h AM
    (below 12) or h - 12 PM. *)
Theorem fmt_hour_local_hour (ts tz_offset days : Z) :
  fmt_hour (ts + 86400 * days) tz_offset = fmt_hour ts tz_offset /\
  fmt_hour ts tz_offset = fmt_hour (ts + tz_offset) 0 /\
  (hour_of_day (ts + tz_offset) = 0%Z -> fmt_hour ts tz_offset = "12AM") /\
  (hour_of_day (ts + tz_offset) = 12%Z -> fmt_hour ts tz_offset = "12PM") /\
  ((0 < hour_of_day (ts + tz_offset) < 12)%Z ->
   fmt_hour ts tz_offset = pretty (hour_of_day (ts + tz_offset)) +:+ "AM") /\
  ((12 < hour_of_day (ts + tz_offset))%Z ->
   fmt_hour ts tz_offset = pretty (hour_of_day (ts + tz_offset) - 12)%Z +:+ "PM").
Proof.
  pose proof (hour_of_day_range (ts + tz_offset)) as Hrange.
  unfold fmt_hour. rewrite !strftime_I_p_hour.
  split; [| split; [| split; [| split; [| split]]]].
  - assert (Hday : hour_of_day (ts + 86400 * days + tz_offset)
                   = hour_of_day (ts + tz_offset)).
    { unfold hour_of_day. f_equal.
      replace (ts + 86400 * days + tz_offset)%Z
        with (ts + tz_offset + days * 86400)%Z by lia.
      apply Z_mod_plus_full. }
    now rewrite Hday.
  - now rewrite Z.add_0_r.
  - intros ->. reflexivity.
  - intros ->. reflexivity.
  - intros Hh. rewrite Z.mod_small by lia.
    rewrite (proj2 (Z.eqb_neq _ 0)) by lia.
    now rewrite (proj2 (Z.ltb_lt _ 12)) by lia.
  - intros Hh.
    assert (Hmod : (hour_of_day (ts + tz_offset) `mod` 12
                    = hour_of_day (ts + tz_offset) - 12)%Z).
    { symmetry. apply (Z.mod_unique_pos _ 12 1); lia. }
    rewrite Hmod.
    rewrite (proj2 (Z.eqb_neq _ 0)) by lia.
    now rewrite (proj2 (Z.ltb_ge _ 12)) by lia.
Qed.

Lemma fmt_hour_local_hour_witness :
  fmt_hour 1700000000 (-25200) = pretty (15 - 12)%Z +:+ "PM".
Proof.
  apply (fmt_hour_local_hour 1700000000 (-25200) 0).
  vm_compute. split; reflexivity.
Defined.

Lemma string_length_app (s1 s2 : string) :
  String.length (s1 +:+ s2) = String.length s1 + String.length s2.
Proof.
  induction s1 as [| c s1 IH]; [reflexivity |].
  change (S (String.length (s1 +:+ s2)) = S (String.length s1 + String.length s2)).
  now rewrite IH.
Qed.

(** X12. A window is written as a single hour label exactly when it starts
    and ends at the same timestamp; a window between two different
    timestamps is always written as a range, also when both ends carry the
    same label. *)
Theorem fmt_range_single (start_ts end_ts tz_offset : Z) :
  (fmt_range start_ts end_ts tz_offset = fmt_hour start_ts tz_offset
   <-> start_ts = end_ts) /\
  (start_ts <> end_ts ->
   fmt_range start_ts end_ts tz_offset =
     fmt_hour start_ts tz_offset +:+ "–" +:+ fmt_hour end_ts tz_offset).
Proof.
  unfold fmt_range, fmt_hour.
  destruct (start_ts + tz_offset =? end_ts + tz_offset)%Z eqn:Heq.
  - apply Z.eqb_eq in Heq. split; [| lia].
    split; [lia | reflexivity].
  - apply Z.eqb_neq in Heq. split; [| reflexivity].
    split; [| lia].
    intros Hsame. apply (f_equal String.length) in Hsame.
    rewrite !string_length_app in Hsame. cbn in Hsame. lia.
Qed.

Lemma fmt_range_single_witness :
  fmt_range 0 86400 0 = fmt_hour 0 0 +:+ "–" +:+ fmt_hour 86400 0.
Proof. apply (fmt_range_single 0 86400 0). lia. Defined.

(** ** Safe windows, continued *)

Lemma runs_from_cover (g : list nat) :
  forall s e k : nat,
  s <= e -> (s <= k <= e \/ k ∈ g) ->
  exists r, r ∈ runs_from s e g /\ fst r <= k <= snd r.
Proof.
  induction g as [| x g IH]; intros s e k Hse Hk; cbn [runs_from].
  - destruct Hk as [Hk | Hk]; [| now apply elem_of_nil in Hk].
    exists (s, e). split; [now left | exact Hk].
  - destruct (x =? e + 1) eqn:Hc.
    + apply Nat.eqb_eq in Hc. apply IH; [lia |].
      destruct Hk as [Hk | Hk]; [left; lia |].
      apply elem_of_cons in Hk as [-> | Hk]; [left; lia | now right].
    + destruct Hk as [Hk | Hk].
      * exists (s, e). split; [now left | exact Hk].
      * destruct (IH x x k ltac:(lia)) as (r & Hr & Hin).
        { apply elem_of_cons in Hk as [-> | Hk]; [left; lia | now right]. }
        exists r. split; [now right | exact Hin].
Qed.

(** X13. The windows cover exactly the Low/Moderate hours: a row lies
    between the first and last row of some window if and only if its class
    is Low or Moderate. *)
Theorem safe_windows_cover_good_rows (fuel : nat) (rows : list Row) :
  length rows < fuel ->
  exists (runs : list (nat * nat)) (windows : list (Z * Z)),
    merge_safe_windows fuel rows = Ret windows /\
    Forall2 (spans rows) runs windows /\
    forall k, good_at rows k <-> exists r, r ∈ runs /\ fst r <= k <= snd r.
Proof.
  intros Hfuel.
  destruct (merge_safe_windows_returns fuel rows Hfuel) as (windows & Hrun & Hspans).
  destruct (runs_of_good_idxs rows) as (Hmax & _ & _).
  exists (runs_of (good_idxs_of rows)), windows.
  split; [exact Hrun |]. split; [exact Hspans |].
  intros k. split.
  - intros Hk. apply good_idxs_elem in Hk.
    destruct (good_idxs_of rows) as [| x g]; [now apply elem_of_nil in Hk |].
    cbn [runs_of]. apply runs_from_cover; [lia |].
    apply elem_of_cons in Hk as [-> | Hk]; [left; lia | now right].
  - intros ([s e] & Hr & Hin). apply Hmax in Hr as (_ & Hall & _).
    apply Hall. exact Hin.
Qed.

Lemma safe_windows_cover_good_rows_witness :
  exists (runs : list (nat * nat)) (windows : list (Z * Z)),
    merge_safe_windows 4 [row_at 0 Low; row_at 3600 High; row_at 7200 Moderate]
      = Ret windows /\
    Forall2 (spans [row_at 0 Low; row_at 3600 High; row_at 7200 Moderate])
            runs windows /\
    forall k, good_at [row_at 0 Low; row_at 3600 High; row_at 7200 Moderate] k
              <-> exists r, r ∈ runs /\ fst r <= k <= snd r.
Proof.
  apply (safe_windows_cover_good_rows 4
           [row_at 0 Low; row_at 3600 High; row_at 7200 Moderate]).
  cbn. lia.
Defined.

Lemma good_from_all (rows : list Row) :
  Forall (fun rw => is_good rw = true) rows ->
  forall n : nat, good_from n rows = seq n (length rows).
Proof.
  induction 1 as [| rw rows Hrw _ IH]; intros n; cbn [good_from length seq];
    [reflexivity |].
  rewrite Hrw. f_equal. apply IH.
Qed.

Lemma runs_from_seq (m : nat) :
  forall s e : nat, runs_from s e (seq (S e) m) = [(s, e + m)].
Proof.
  induction m as [| m IH]; intros s e; cbn [seq runs_from].
  - now rewrite Nat.add_0_r.
  - rewrite (proj2 (Nat.eqb_eq (S e) (e + 1))) by lia.
    rewrite IH. do 2 f_equal. lia.
Qed.

Lemma all_good_one_window (fuel : nat) (rows : list Row) :
  rows <> [] -> Forall (fun rw => is_good rw = true) rows ->
  length rows < fuel ->
  exists first final,
    head rows = Some first /\ last rows = Some final /\
    merge_safe_windows fuel rows = Ret [(ts first, ts final)].
Proof.
  intros Hne Hall Hfuel.
  destruct (merge_safe_windows_returns fuel rows Hfuel) as (windows & Hrun & Hspans).
  rewrite good_idxs_of_good_from, (good_from_all rows Hall) in Hspans.
  destruct rows as [| rw rows]; [contradiction |].
  cbn [length seq runs_of] in Hspans. rewrite runs_from_seq in Hspans.
  apply Forall2_cons_inv_l in Hspans as (w & ws & Hspan & Hnil & ->).
  apply Forall2_nil_inv_l in Hnil as ->.
  destruct Hspan as (first & final & Hfirst & Hfinal & ->).
  cbn [fst snd] in Hfirst, Hfinal.
  exists first, final. split; [exact Hfirst |]. split; [| exact Hrun].
  rewrite last_lookup. exact Hfinal.
Qed.

(** X14. When the peak risk of the forecast is Low or Moderate, the whole
    forecast is one safe window, from the timestamp of the first reading to
    the timestamp of the last one. *)
Theorem calm_forecast_one_window (fuel : nat) (tz_offset : Z) (hourly : list Hourly) :
  hourly <> [] -> length hourly < fuel ->
  exists rows peak peak_hi h_first h_last,
    process_forecast tz_offset hourly = Ret (Peak rows peak (risk peak) peak_hi) /\
    head hourly = Some h_first /\ last hourly = Some h_last /\
    (risk peak = Low \/ risk peak = Moderate ->
     merge_safe_windows fuel rows = Ret [(h_dt h_first, h_dt h_last)]).
Proof.
  intros Hne Hfuel.
  destruct (process_forecast_nonempty tz_offset hourly Hne)
    as (rows & peak & Hrun & Hall & (i & Hi & Hmax & _)).
  pose proof (Forall2_length _ _ _ Hall) as Hlen.
  assert (Hrisk : forall r, r ∈ rows -> risk r = fst (risk_from_hi (hi_f r))).
  { intros r Hr. apply list_elem_of_lookup_1 in Hr as [j Hj].
    destruct (Forall2_lookup_r _ _ _ _ _ Hall Hj) as (h & _ & Hann).
    apply Hann. }
  assert (Hpeak : peak ∈ rows) by (eapply list_elem_of_lookup_2; eauto).
  destruct hourly as [| h0 hourly'] eqn:Hh; [contradiction |]. rewrite <- Hh in *.
  assert (Hlast : is_Some (last hourly)).
  { rewrite last_lookup. apply lookup_lt_is_Some_2. rewrite Hh. cbn. lia. }
  destruct Hlast as [hn Hhn].
  exists rows, peak, (py_round (hi_f peak)), h0, hn.
  split; [exact Hrun |]. split; [now rewrite Hh |]. split; [exact Hhn |].
  intros Hcalm.
  assert (Hgood : Forall (fun rw => is_good rw = true) rows).
  { apply Forall_forall. intros r Hr.
    assert (Hle : risk_le (risk r) (risk peak)).
    { rewrite (Hrisk r Hr), (Hrisk peak Hpeak). apply risk_from_hi_mono.
      apply list_elem_of_lookup_1 in Hr as [j Hj]. now apply (Hmax j). }
    unfold is_good, risk_le in *.
    destruct Hcalm as [Hp | Hp]; rewrite Hp in Hle;
      destruct (risk r); cbn in Hle; try reflexivity; lia. }
  assert (Hrows : rows <> []) by (intros ->; now apply elem_of_nil in Hpeak).
  destruct (all_good_one_window fuel rows Hrows Hgood ltac:(lia))
    as (first & final & Hfirst & Hfinal & Hmerge).
  rewrite Hmerge. do 3 f_equal.
  - rewrite head_lookup in Hfirst.
    destruct (Forall2_lookup_r _ _ _ _ _ Hall Hfirst) as (h & Hh0 & Hann).
    rewrite Hh in Hh0. cbn in Hh0. injection Hh0 as <-. apply Hann.
  - rewrite last_lookup in Hfinal. rewrite last_lookup in Hhn.
    destruct (Forall2_lookup_r _ _ _ _ _ Hall Hfinal) as (h & Hh' & Hann).
    rewrite <- Hlen, Hhn in Hh'. injection Hh' as <-. apply Hann.
Qed.

Lemma calm_forecast_one_window_witness :
  exists rows peak peak_hi h_first h_last,
    process_forecast 0 [mkHourly 0 70 None None; mkHourly 3600 72 None None] =
      Ret (Peak rows peak (risk peak) peak_hi) /\
    head [mkHourly 0 70 None None; mkHourly 3600 72 None None] = Some h_first /\
    last [mkHourly 0 70 None None; mkHourly 3600 72 None None] = Some h_last /\
    (risk peak = Low \/ risk peak = Moderate ->
     merge_safe_windows 3 rows = Ret [(h_dt h_first, h_dt h_last)]).
Proof.
  apply (calm_forecast_one_window 3 0
           [mkHourly 0 70 None None; mkHourly 3600 72 None None]).
  - discriminate.
  - cbn. lia.
Defined.

(** ** The whole forecast branch *)

Lemma adjust_rules_for_risk_returns (role : string) (base : RoleRule) (r : Risk) :
  ROLE_RULES !! role = Some base ->
  exists rules, adjust_rules_for_risk role r = Ret rules /\
    ml_per_20 rules = ml_per_20 base.
Proof.
  intros Hbase. unfold adjust_rules_for_risk. rewrite Hbase.
  destruct r; cbn; eexists; split; reflexivity.
Qed.

(** The branch up to the role lookup. *)
Lemma analyze_forecast_part (fuel : nat) (tz_offset : Z) (data_hourly : list Hourly) :
  data_hourly <> [] -> 24 < fuel ->
  exists rows peak windows,
    process_forecast tz_offset (take 24 data_hourly) =
      Ret (Peak rows peak (risk peak) (py_round (hi_f peak))) /\
    length rows = min 24 (length data_hourly) /\
    Forall2 annotates (take 24 data_hourly) rows /\
    first_maximum rows peak /\
    merge_safe_windows fuel rows = Ret windows.
Proof.
  intros Hne Hfuel.
  assert (Htake : take 24 data_hourly <> []).
  { destruct data_hourly; [contradiction | discriminate]. }
  destruct (process_forecast_nonempty tz_offset (take 24 data_hourly) Htake)
    as (rows & peak & Hrun & Hall & Hpeak).
  assert (Hlen : length rows = min 24 (length data_hourly)).
  { rewrite <- (Forall2_length _ _ _ Hall). apply length_take. }
  destruct (merge_safe_windows_returns fuel rows ltac:(lia)) as (windows & Hmerge & _).
  exists rows, peak, windows. auto.
Qed.

(** X15. With at least one hourly reading, a role of the table and enough
    loop iterations, the script shows a plan: rows for the first 24
    readings only, the peak of those rows, their safe windows, the rules of
    the role adjusted for the peak risk, and the reminders for the session
    with the role's hydration amount. *)
Theorem try_analyze_shows_plan (fuel : nat) (role : string) (base : RoleRule)
    (duration tz_offset : Z) (data_hourly : list Hourly) :
  data_hourly <> [] -> ROLE_RULES !! role = Some base ->
  24 < fuel -> Z.to_nat (duration `div` 20) < fuel ->
  exists rows peak windows rules,
    try_analyze fuel role duration tz_offset data_hourly =
      Ret (Shown rows (py_round (hi_f peak)) (risk peak) windows rules
                 (reminders duration (ml_per_20 base))) /\
    length rows = min 24 (length data_hourly) /\
    Forall2 annotates (take 24 data_hourly) rows /\
    first_maximum rows peak /\
    merge_safe_windows fuel rows = Ret windows /\
    adjust_rules_for_risk role (risk peak) = Ret rules.
Proof.
  intros Hne Hbase Hfuel Hdur.
  destruct (analyze_forecast_part fuel tz_offset data_hourly Hne Hfuel)
    as (rows & peak & windows & Hrun & Hlen & Hall & Hpeak & Hmerge).
  destruct (adjust_rules_for_risk_returns role base (risk peak) Hbase)
    as (rules & Hrules & Hml).
  exists rows, peak, windows, rules.
  split; [| auto 6].
  unfold try_analyze, analyze. rewrite Hrun. cbn [mbind Py_bind py_bind].
  rewrite Hmerge. cbn [mbind Py_bind py_bind].
  rewrite Hrules. cbn [mbind Py_bind py_bind].
  rewrite Hml, (hydration_schedule_returns fuel duration (ml_per_20 base) Hdur).
  reflexivity.
Qed.

Lemma try_analyze_shows_plan_witness :
  exists rows peak windows rules,
    try_analyze 25 "Construction" 90 0 [mkHourly 0 70 None None] =
      Ret (Shown rows (py_round (hi_f peak)) (risk peak) windows rules
                 (reminders 90 300)) /\
    length rows = min 24 1 /\
    Forall2 annotates (take 24 [mkHourly 0 70 None None]) rows /\
    first_maximum rows peak /\
    merge_safe_windows 25 rows = Ret windows /\
    adjust_rules_for_risk "Construction" (risk peak) = Ret rules.
Proof.
  apply (try_analyze_shows_plan 25 "Construction"
           (mkRule 40 20 300 "Use shade canopies; rotate tasks.")
           90 0 [mkHourly 0 70 None None]).
  - discriminate.
  - reflexivity.
  - lia.
  - vm_compute. lia.
Defined.

(** ** Where rounding decides

    In binary64 an adjustment smaller than half the spacing of the floats
    around the heat index is absorbed, and the conversions are inverse only
    up to rounding; this is why the statements over the reals above claim
    no strict decrease or increase and no exact round trip. *)

#[warnings="-inexact-float"]
Example heat_index_f64_low_absorbed :
  (12.999999999999998 <? 13)%float = true /\
  heat_index_f64 95 12.999999999999998 = Ret (rothfusz64 95 12.999999999999998).
Proof. vm_compute. split; reflexivity. Qed.

#[warnings="-inexact-float"]
Example heat_index_f64_high_absorbed :
  (85 <? 85.00000000000001)%float = true /\
  heat_index_f64 82 85.00000000000001 = Ret (rothfusz64 82 85.00000000000001).
Proof. vm_compute. split; reflexivity. Qed.

Example heat_index_f64_at_112 :
  heat_index_f64 112 0 = Ret (rothfusz64 112 0).
Proof. vm_compute. reflexivity. Qed.

#[warnings="-inexact-float"]
Example c_to_f64_f_to_c64_rounds :
  c_to_f64 (f_to_c64 0.1) = 0.10000000000000142%float.
Proof. vm_compute. reflexivity. Qed.
